(** * FindMyBook: the OpenLibrary launcher plugin (src/main.py)

    A shallow embedding of [OpenLibraryPlugin]: the catalogue search, the
    cover resolver with its on-disk image cache, the eviction sweep and the
    query orchestrator, followed by the properties of the specification.

    Modelling conventions.
    - A Python [str] is a [string] whose characters are code points below
      256; [None], [int] and [str] values that flow through the dynamically
      typed parameters [cover_id] and [isbn] are values of [pyval].
    - The program's effects are threaded through a state-and-exception
      monad over a [world]: the content of the [img_cache] directory, and
      the trace of every network and file-system call made so far.
    - The network is an oracle from URLs to responses.
    - Time stamps are whole seconds ([Z]) instead of Python floats.
    - [log_debug] only appends to [debug.log] and swallows its own errors;
      it touches neither the cache nor the network and is left out. *)

From Stdlib Require Import ZArith List String Ascii Bool Lia DecimalString.
Import ListNotations.
Local Open Scope string_scope.
Local Open Scope Z_scope.

(** ** Python values and strings *)

Module Py.

(** The values that reach [cover_id] and [isbn]. *)
Inductive pyval : Type :=
| PNone
| PInt (n : Z)
| PStr (s : string).

(** Python truth value: [None], [0] and the empty string are false. *)
Definition truthy (v : pyval) : bool :=
  match v with
  | PNone => false
  | PInt n => negb (n =? 0)
  | PStr s => negb (s =? "")%string
  end.

(** [a or b]. *)
Definition or_ (a b : pyval) : pyval := if truthy a then a else b.

(** [str(n)] for an [int]. *)
Definition str_int (n : Z) : string := NilZero.string_of_int (Z.to_int n).

(** [str(v)]; an f-string field [{v}] formats the same way. *)
Definition str (v : pyval) : string :=
  match v with
  | PNone => "None"
  | PInt n => str_int n
  | PStr s => s
  end.

(** [s.startswith(p)]. *)
Definition startswith (p s : string) : bool := String.prefix p s.

(** [s.replace(old, new)] for a non-empty [old]: every occurrence, found
    left to right without overlap.  [skip] counts the characters of the
    occurrence just replaced that are still to be dropped. *)
Fixpoint replace_from (old new : string) (skip : nat) (s : string) : string :=
  match s with
  | EmptyString => EmptyString
  | String c s' =>
      match skip with
      | S k => replace_from old new k s'
      | O =>
          if String.prefix old s
          then new ++ replace_from old new (Nat.pred (String.length old)) s'
          else String c (replace_from old new O s')
      end
  end.

Definition replace (old new s : string) : string := replace_from old new O s.

(** [c.isspace()] on the code points below 256: TAB, LF, VT, FF, CR, the
    separators FS, GS, RS, US, the space, NEL and the no-break space. *)
Definition isspace (c : ascii) : bool :=
  let n := nat_of_ascii c in
  ((9 <=? n) && (n <=? 13) || (28 <=? n) && (n <=? 32)
   || (n =? 133) || (n =? 160))%nat.

Fixpoint lstrip (s : string) : string :=
  match s with
  | EmptyString => EmptyString
  | String c s' => if isspace c then lstrip s' else s
  end.

Fixpoint rstrip (s : string) : string :=
  match s with
  | EmptyString => EmptyString
  | String c s' =>
      match rstrip s' with
      | EmptyString => if isspace c then EmptyString else String c EmptyString
      | r => String c r
      end
  end.

(** [s.strip()]. *)
Definition strip (s : string) : string := rstrip (lstrip s).

(** [not s] for a string. *)
Definition is_empty (s : string) : bool := (s =? "")%string.

(** A string made of white space only (the empty string included). *)
Fixpoint blank (s : string) : bool :=
  match s with
  | EmptyString => true
  | String c s' => isspace c && blank s'
  end.


End Py.

(** ** [urllib.parse.quote] with its default [safe='/'] *)

Module Quote.

Definition hex_digit (n : nat) : ascii :=
  ascii_of_nat (if (n <? 10)%nat then 48 + n else 55 + n)%nat.

(** [%XX], two upper-case hexadecimal digits. *)
Definition percent (n : nat) : string :=
  String "%" (String (hex_digit (n / 16)) (String (hex_digit (n mod 16)) "")).

(** Letters, digits and [_.-~] are never quoted, nor is the safe [/]. *)
Definition unreserved (n : nat) : bool :=
  ((65 <=? n) && (n <=? 90) || (97 <=? n) && (n <=? 122)
   || (48 <=? n) && (n <=? 57)
   || (n =? 95) || (n =? 46) || (n =? 45) || (n =? 126) || (n =? 47))%nat.

(** One code point: kept, or the percent-escapes of its UTF-8 bytes. *)
Definition quote_char (c : ascii) : string :=
  let n := nat_of_ascii c in
  if unreserved n then String c ""
  else if (n <? 128)%nat then percent n
  else percent (192 + n / 64) ++ percent (128 + n mod 64).

Fixpoint quote (s : string) : string :=
  match s with
  | EmptyString => EmptyString
  | String c s' => quote_char c ++ quote s'
  end.

End Quote.

(** ** The world: cache directory, clock and call trace *)

(** Paths stay symbolic.  [plugin_dir] is fixed when the plugin starts:
    [AppIcon] is [self.app_icon], [DefaultBookIcon] is
    [self.default_book_icon], and [CacheFile n] is
    [os.path.join(self.cache_dir, n)]. *)
Inductive path : Type :=
| AppIcon
| DefaultBookIcon
| CacheFile (filename : string).

Inductive kind : Type := Regular | Directory.

(** What the operating system does with an entry.  A [Vanishing] entry is
    deleted by another process right after this process has seen it, so the
    next call on it fails; a [Locked] one can be neither removed nor
    rewritten (a permission error). *)
Inductive hazard : Type := Sound | Vanishing | Locked.

Record file : Type := mkFile {
  f_kind : kind;
  f_size : Z;          (* bytes *)
  f_mtime : Z;         (* seconds since the epoch *)
  f_hazard : hazard
}.

(** A directory is the list of its entries in [os.listdir] order.  The
    names of a real directory are pairwise distinct; the properties that
    depend on it say so with [NoDup (Dir.names d)]. *)
Definition directory : Type := list (string * file).

Inductive event : Type :=
| NetGet (url : string)          (* urllib.request.urlopen *)
| FsIsDir                        (* os.path.isdir(cache_dir) *)
| FsListDir                      (* os.listdir(cache_dir) *)
| FsExists (name : string)       (* os.path.exists *)
| FsIsFile (name : string)       (* os.path.isfile *)
| FsGetSize (name : string)      (* os.path.getsize *)
| FsGetMTime (name : string)     (* os.path.getmtime *)
| FsRemove (name : string)       (* os.remove *)
| FsWrite (name : string).       (* open(..., 'wb') and write *)

Record world : Type := mkWorld {
  cache_dir : option directory;  (* [None]: img_cache does not exist *)
  clock : Z;                     (* time.time() *)
  trace : list event             (* oldest call first *)
}.

Definition is_regular (f : file) : bool :=
  match f_kind f with Regular => true | Directory => false end.

Module Dir.

Fixpoint lookup (name : string) (d : directory) : option file :=
  match d with
  | [] => None
  | (n, f) :: d' => if (n =? name)%string then Some f else lookup name d'
  end.

Fixpoint delete (name : string) (d : directory) : directory :=
  match d with
  | [] => []
  | (n, f) :: d' =>
      if (n =? name)%string then delete name d' else (n, f) :: delete name d'
  end.

(** Overwrite in place, or create at the end of the listing. *)
Fixpoint store (name : string) (f : file) (d : directory) : directory :=
  match d with
  | [] => [(name, f)]
  | (n, g) :: d' =>
      if (n =? name)%string then (n, f) :: d' else (n, g) :: store name f d'
  end.

Definition names (d : directory) : list string := map fst d.

End Dir.

Definition entries (w : world) : directory :=
  match cache_dir w with Some d => d | None => [] end.

Definition stat (name : string) (w : world) : option file :=
  Dir.lookup name (entries w).

(** The URLs requested so far, oldest first. *)
Fixpoint net_calls (t : list event) : list string :=
  match t with
  | [] => []
  | NetGet u :: t' => u :: net_calls t'
  | _ :: t' => net_calls t'
  end.

(** The cache-directory calls made so far. *)
Fixpoint fs_calls (t : list event) : list event :=
  match t with
  | [] => []
  | NetGet _ :: t' => fs_calls t'
  | e :: t' => e :: fs_calls t'
  end.

(** ** State and exception monad *)

Inductive outcome (A : Type) : Type :=
| Ok (a : A)
| Raised.                        (* a Python exception is propagating *)
Arguments Ok {A} a.
Arguments Raised {A}.

Definition M (A : Type) : Type := world -> outcome A * world.

Definition ret {A} (a : A) : M A := fun w => (Ok a, w).

Definition bind {A B} (m : M A) (k : A -> M B) : M B :=
  fun w => match m w with
           | (Ok a, w') => k a w'
           | (Raised, w') => (Raised, w')
           end.

Definition raise {A} : M A := fun w => (Raised, w).

(** [try: m  except: h]. *)
Definition try_except {A} (m : M A) (h : M A) : M A :=
  fun w => match m w with
           | (Ok a, w') => (Ok a, w')
           | (Raised, w') => h w'
           end.

Definition emit (e : event) : M unit :=
  fun w => (Ok tt, mkWorld (cache_dir w) (clock w) (trace w ++ [e])).

Definition get_world : M world := fun w => (Ok w, w).

Definition set_dir (d : directory) : M unit :=
  fun w => (Ok tt, mkWorld (Some d) (clock w) (trace w)).

Declare Scope py_scope.
Delimit Scope py_scope with py.
Notation "x <- m ;; k" := (bind m (fun x => k))
  (at level 100, m at next level, right associativity) : py_scope.
Notation "m ;; k" := (bind m (fun _ => k))
  (at level 100, right associativity) : py_scope.
Local Open Scope py_scope.

(** [for x in xs: body(x)]; an exception leaves the loop. *)
Fixpoint for_each {A} (xs : list A) (body : A -> M unit) : M unit :=
  match xs with
  | [] => ret tt
  | x :: xs' => body x ;; for_each xs' body
  end.

(** ** Operating-system calls on the cache directory *)

Module Os.

Definition time : M Z := w <- get_world ;; ret (clock w).

Definition path_isdir : M bool :=
  emit FsIsDir ;;
  w <- get_world ;;
  ret (match cache_dir w with Some _ => true | None => false end).

Definition listdir : M (list string) :=
  emit FsListDir ;;
  w <- get_world ;;
  match cache_dir w with
  | Some d => ret (Dir.names d)
  | None => raise
  end.

Definition path_exists (name : string) : M bool :=
  emit (FsExists name) ;;
  w <- get_world ;;
  ret (match stat name w with Some _ => true | None => false end).

Definition path_isfile (name : string) : M bool :=
  emit (FsIsFile name) ;;
  w <- get_world ;;
  ret (match stat name w with Some f => is_regular f | None => false end).

(** The [os.stat] behind [getsize] and [getmtime]: it fails on a missing
    entry, and on a [Vanishing] one, which is gone by now. *)
Definition stat_now (name : string) : M file :=
  w <- get_world ;;
  match stat name w with
  | None => raise
  | Some f =>
      match f_hazard f with
      | Vanishing => set_dir (Dir.delete name (entries w)) ;; raise
      | _ => ret f
      end
  end.

Definition path_getsize (name : string) : M Z :=
  emit (FsGetSize name) ;; f <- stat_now name ;; ret (f_size f).

Definition path_getmtime (name : string) : M Z :=
  emit (FsGetMTime name) ;; f <- stat_now name ;; ret (f_mtime f).

(** [os.remove]: fails on a missing entry, a directory or a [Locked]
    file. *)
Definition remove (name : string) : M unit :=
  emit (FsRemove name) ;;
  f <- stat_now name ;;
  w <- get_world ;;
  match f_kind f, f_hazard f with
  | Regular, Sound => set_dir (Dir.delete name (entries w))
  | _, _ => raise
  end.

(** [with open(name, 'wb') as out: out.write(content)]: fails when the
    cache directory is missing, or on a directory or a [Locked] file;
    otherwise the file holds exactly [content] afterwards. *)
Definition write_file (name : string) (content : list Byte.byte) : M unit :=
  emit (FsWrite name) ;;
  w <- get_world ;;
  match cache_dir w with
  | None => raise
  | Some d =>
      let fresh := mkFile Regular (Z.of_nat (List.length content)) (clock w) Sound in
      match Dir.lookup name d with
      | None => set_dir (Dir.store name fresh d)
      | Some f =>
          match f_kind f, f_hazard f with
          | Regular, Sound => set_dir (Dir.store name fresh d)
          | Regular, Vanishing =>
              set_dir (Dir.store name fresh (Dir.delete name d))
          | _, _ => raise
          end
      end
  end.

End Os.

(** ** The outside: HTTP and JSON *)

(** One document of the catalogue's search response, with the fields the
    plugin reads; [None] is an absent key. *)
Record doc : Type := mkDoc {
  d_key : option string;
  d_title : option string;
  d_author_name : option (list string);
  d_cover_i : option Z;
  d_cover_edition_key : option string;
  d_first_publish_year : option Z;
  d_isbn : option (list string)
}.

(** The decoded response; [docs = None] when it has no ['docs'] key. *)
Record search_data : Type := mkData { docs : option (list doc) }.

(** [urlopen_read url] is the body that [urlopen(req).read()] returns, or
    [None] when the request raises (time-out, DNS, HTTP error);
    [json_loads] is [json.loads(body.decode('utf-8'))], [None] when it
    raises. *)
Record remote : Type := mkRemote {
  urlopen_read : string -> option (list Byte.byte);
  json_loads : list Byte.byte -> option search_data
}.

Definition urlopen (net : remote) (url : string) : M (list Byte.byte) :=
  emit (NetGet url) ;;
  match urlopen_read net url with
  | Some body => ret body
  | None => raise
  end.

(** ** OpenLibraryPlugin *)

(** The dictionary [book_info] built by the search. *)
Record book_info : Type := mkBook {
  key : option string;
  title : string;
  author_name : string;
  cover_id : Py.pyval;
  first_publish_year : option Z;
  isbn : Py.pyval
}.

(** A Flow Launcher result dictionary; the placeholders carry no
    [JsonRPCAction]. *)
Record result_item : Type := mkItem {
  Title : string;
  SubTitle : string;
  IcoPath : path;
  JsonRPCAction : option (string * list (option string))
}.

Definition of_int (o : option Z) : Py.pyval :=
  match o with Some n => Py.PInt n | None => Py.PNone end.

Definition of_str (o : option string) : Py.pyval :=
  match o with Some s => Py.PStr s | None => Py.PNone end.

Section Plugin.

Variable net : remote.

(** *** cleanup_image_cache (lines 43-56) *)

Definition age_limit_seconds : Z := 3 * 24 * 60 * 60.

(** The body of the loop of lines 49-54. *)
Definition sweep_file (now : Z) (filename : string) : M unit :=
  isf <- Os.path_isfile filename ;;
  if isf then
    file_mod_time <- Os.path_getmtime filename ;;
    if age_limit_seconds <? now - file_mod_time
    then Os.remove filename
    else ret tt
  else ret tt.

Definition cleanup_image_cache : M unit :=
  d <- Os.path_isdir ;;
  if negb d then ret tt
  else
    now <- Os.time ;;
    try_except
      (names <- Os.listdir ;;
       for_each names (sweep_file now))
      (ret tt).

(** *** search_openlibrary_api (lines 58-100) *)

(** The body of the loop over [data['docs']]. *)
Definition book_of_doc (d : doc) : book_info :=
  let cover_id := Py.or_ (of_int (d_cover_i d)) (of_str (d_cover_edition_key d)) in
  let cover_id :=
    match d_isbn d with
    | Some (first :: _) =>
        if negb (Py.truthy cover_id) then Py.PStr ("isbn_" ++ first) else cover_id
    | _ => cover_id
    end in
  {| key := d_key d;
     title := match d_title d with Some t => t | None => "Unknown Title" end;
     author_name :=
       match d_author_name d with
       | Some (a :: _) => a
       | _ => "Unknown Author"
       end;
     cover_id := cover_id;
     first_publish_year := d_first_publish_year d;
     isbn := match d_isbn d with Some (i :: _) => Py.PStr i | _ => Py.PNone end |}.

Definition api_url (search_term : string) : string :=
  "https://openlibrary.org/search.json?title=" ++ Quote.quote search_term
    ++ "&limit=10".

Definition search_openlibrary_api (search_term : string) : M (list book_info) :=
  try_except
    (let search_term := Py.strip search_term in
     if Py.is_empty search_term then ret []
     else
       body <- urlopen net (api_url search_term) ;;
       match json_loads net body with
       | None => raise
       | Some data =>
           let books :=
             match docs data with
             | Some ds => map book_of_doc ds
             | None => []
             end in
           ret (firstn 5 books)
       end)
    (ret []).

(** *** download_cover (lines 102-136) *)

Definition id_url (cover_id : Py.pyval) (size : string) : string :=
  "https://covers.openlibrary.org/b/id/" ++ Py.str cover_id ++ "-" ++ size ++ ".jpg".

Definition isbn_url (isbn : string) : string :=
  "https://covers.openlibrary.org/b/isbn/" ++ isbn ++ "-M.jpg".

Definition is_isbn_tag (cover_id : Py.pyval) : bool :=
  Py.startswith "isbn_" (Py.str cover_id).

(** The list built by lines 104-118. *)
Definition urls_to_try (cover_id isbn : Py.pyval) : list string :=
  (if Py.truthy cover_id && negb (is_isbn_tag cover_id)
   then [id_url cover_id "M"; id_url cover_id "L"] else [])
  ++ (if Py.truthy isbn then [isbn_url (Py.str isbn)] else [])
  ++ (if Py.truthy cover_id && is_isbn_tag cover_id
      then [isbn_url (Py.replace "isbn_" "" (Py.str cover_id))] else []).

(** A body counts as a cover when it is longer than 1000 bytes. *)
Definition is_cover (content : list Byte.byte) : bool :=
  1000 <? Z.of_nat (List.length content).

(** One round of the loop of lines 120-134: [true] is [return True],
    [false] goes on with the next URL. *)
Definition try_url (save_name url : string) : M bool :=
  try_except
    (content <- urlopen net url ;;
     if is_cover content
     then Os.write_file save_name content ;; ret true
     else ret false)
    (ret false).

Fixpoint try_urls (save_name : string) (urls : list string) : M bool :=
  match urls with
  | [] => ret false
  | url :: rest =>
      done <- try_url save_name url ;;
      if done then ret true else try_urls save_name rest
  end.

(** [save_path] is always a path inside the cache directory; it is passed
    as the file's name there. *)
Definition download_cover (cover_id : Py.pyval) (save_name : string)
    (isbn : Py.pyval) : M bool :=
  try_urls save_name (urls_to_try cover_id isbn).

(** *** get_cover_image (lines 138-162) *)

Definition cache_name (cover_id isbn : Py.pyval) : string :=
  Py.replace "/" "_" (Py.str (Py.or_ cover_id isbn)).

Definition cached_cover_name (cover_id isbn : Py.pyval) : string :=
  cache_name cover_id isbn ++ ".jpg".

(** Lines 147-156, the look-up in the cache: [true] when the cached path
    is returned, [false] when control reaches the download. *)
Definition cached_cover_valid (name : string) : M bool :=
  present <- Os.path_exists name ;;
  if present then
    try_except
      (size <- Os.path_getsize name ;;
       if 1000 <? size then ret true
       else Os.remove name ;; ret false)
      (ret false)
  else ret false.

Definition get_cover_image (cover_id isbn : Py.pyval) : M path :=
  if negb (Py.truthy cover_id) && negb (Py.truthy isbn)
  then ret DefaultBookIcon
  else
    let name := cached_cover_name cover_id isbn in
    hit <- cached_cover_valid name ;;
    if hit then ret (CacheFile name)
    else
      got <- download_cover cover_id name isbn ;;
      if got then ret (CacheFile name) else ret DefaultBookIcon.

(** *** process_book_data (lines 164-183) *)

Definition subtitle_of (author : string) (year : option Z) : string :=
  "by " ++ author ++
    match year with
    | Some y => if y =? 0 then "" else " (" ++ Py.str_int y ++ ")"
    | None => ""
    end.

Definition process_book_data (book_data : book_info) : M result_item :=
  cover_path <- get_cover_image (cover_id book_data) (isbn book_data) ;;
  ret {| Title := title book_data;
         SubTitle := subtitle_of (author_name book_data)
                       (first_publish_year book_data);
         IcoPath := cover_path;
         JsonRPCAction :=
           Some ("open_openlibrary_page", [key book_data]) |}.

(** *** query (lines 185-215) *)

Definition start_typing : result_item :=
  {| Title := "OpenLibrary Book Search";
     SubTitle := "Start typing a book title to search...";
     IcoPath := AppIcon;
     JsonRPCAction := None |}.

Definition no_books_found (search_term : string) : result_item :=
  {| Title := "No books found for '" ++ search_term ++ "'";
     SubTitle := "Try a different search term";
     IcoPath := AppIcon;
     JsonRPCAction := None |}.

(** The loop of lines 199-206 over [api_results], appending to
    [results]. *)
Fixpoint process_books (api_results : list book_info)
    (results : list result_item) : M (list result_item) :=
  match api_results with
  | [] => ret results
  | book_data :: rest =>
      results <- try_except
                   (result <- process_book_data book_data ;;
                    ret (results ++ [result])%list)
                   (ret results) ;;
      process_books rest results
  end.

Definition query (search_term : string) : M (list result_item) :=
  if Py.is_empty search_term then ret [start_typing]
  else
    api_results <- search_openlibrary_api search_term ;;
    results <- match api_results with
               | [] => ret []
               | _ => process_books api_results []
               end ;;
    match results with
    | [] => ret [no_books_found search_term]
    | _ => ret results
    end.

End Plugin.

(** ** Observing a run *)

(** The URLs requested by running [m] from [w]. *)
Definition requests_of {A} (m : M A) (w : world) : list string :=
  skipn (List.length (net_calls (trace w))) (net_calls (trace (snd (m w)))).

(** The cache-directory calls made by running [m] from [w]. *)
Definition fs_calls_of {A} (m : M A) (w : world) : list event :=
  skipn (List.length (fs_calls (trace w))) (fs_calls (trace (snd (m w)))).

(** ** Notions used by the properties *)


(** [url] answers with a body that passes the size check. *)
Definition yields_cover (net : remote) (url : string) : bool :=
  match urlopen_read net url with
  | Some content => is_cover content
  | None => false
  end.

(** [Os.write_file name] would succeed in [w]. *)
Definition writable (name : string) (w : world) : bool :=
  match cache_dir w with
  | None => false
  | Some d =>
      match Dir.lookup name d with
      | None => true
      | Some f =>
          match f_kind f, f_hazard f with
          | Regular, Sound | Regular, Vanishing => true
          | _, _ => false
          end
      end
  end.

(** An attempt on [url] ends the download loop: the body is a cover and it
    can be stored under [name]. *)
Definition accepted (net : remote) (name : string) (w : world)
    (url : string) : bool :=
  yields_cover net url && writable name w.

(** The cache holds a file under [name] that the look-up accepts. *)
Definition valid_cover (name : string) (w : world) : Prop :=
  exists f, stat name w = Some f /\ 1000 < f_size f /\
            f_hazard f <> Vanishing.

(** The entries of [urls] up to and including the first accepted one. *)
Fixpoint tried (ok : string -> bool) (urls : list string) : list string :=
  match urls with
  | [] => []
  | u :: rest => u :: (if ok u then [] else tried ok rest)
  end.

(** A file is expired at [now] when it is older than the age limit. *)
Definition expired (now : Z) (f : file) : bool :=
  age_limit_seconds <? now - f_mtime f.

(** The sweep fails on [f]: [getmtime] raises on a vanishing regular file,
    [remove] raises on a locked expired one.  Directories are skipped. *)
Definition faults (now : Z) (f : file) : bool :=
  is_regular f &&
  match f_hazard f with
  | Sound => false
  | Vanishing => true
  | Locked => expired now f
  end.

(** The sweep removes [f]. *)
Definition evicted (now : Z) (f : file) : bool :=
  is_regular f && expired now f.

(** The entries that a sweep at [now] does not remove. *)
Definition survivors (now : Z) (d : directory) : directory :=
  filter (fun entry => negb (evicted now (snd entry))) d.

(** What a sweep at [now] makes of a listing: whether it ran to the end,
    and the entries left. *)
Fixpoint swept (now : Z) (d : directory) : bool * directory :=
  match d with
  | [] => (true, [])
  | (n, f) :: d' =>
      if faults now f then
        (false, match f_hazard f with Vanishing => d' | _ => (n, f) :: d' end)
      else
        let (finished, rest) := swept now d' in
        (finished, if evicted now f then rest else (n, f) :: rest)
  end.

(** *** The two sentences of the specification that the code does not
    follow, as properties of a run *)

(** Each URL is attempted at most once while resolving a record. *)
Definition each_url_attempted_once (net : remote) (cover_id isbn : Py.pyval)
    (w : world) : Prop :=
  NoDup (requests_of (get_cover_image net cover_id isbn) w).

(** After a failure on one file the sweep still removes every other
    expired file. *)
Definition sweep_outlives_failure (w : world) : Prop :=
  forall culprit g, stat culprit w = Some g -> faults (clock w) g = true ->
  forall n f, n <> culprit -> stat n w = Some f -> faults (clock w) f = false ->
              evicted (clock w) f = true ->
              stat n (snd (cleanup_image_cache w)) = None.

(** ** Sample data *)

Module Sample.

Definition day : Z := 24 * 60 * 60.

(** A network on which every request fails. *)
Definition offline : remote := mkRemote (fun _ => None) (fun _ => None).

Definition jpeg : list Byte.byte := repeat Byte.xff 1001.

(** A cover server that knows one URL only. *)
Definition serving (url : string) : remote :=
  mkRemote (fun u => if (u =? url)%string then Some jpeg else None)
           (fun _ => None).

Definition aged (size days : Z) (h : hazard) : file :=
  mkFile Regular size (1000 * day - days * day) h.

Definition at_day_1000 (d : directory) : world :=
  mkWorld (Some d) (1000 * day) [].

Definition empty_cache : world := at_day_1000 [].

(** A two-day-old and a four-day-old cover. *)
Definition two_covers : world :=
  at_day_1000 [("12345.jpg", aged 20000 2 Sound);
               ("OL7353617M.jpg", aged 30000 4 Sound)].

(** Two expired covers; the first cannot be removed. *)
Definition locked_first : world :=
  at_day_1000 [("12345.jpg", aged 20000 4 Locked);
               ("OL7353617M.jpg", aged 30000 4 Sound)].

(** A 500-byte left-over under the key of cover id 12345. *)
Definition stub_12345 : world :=
  at_day_1000 [("12345.jpg", aged 500 1 Sound)].

Definition isbn_tagged : Py.pyval := Py.PStr "isbn_9780131103627".
Definition the_isbn : Py.pyval := Py.PStr "9780131103627".

(** A search hit without [cover_i] and [cover_edition_key]. *)
Definition isbn_only_doc : doc :=
  {| d_key := Some "/works/OL1234567W";
     d_title := Some "The C Programming Language";
     d_author_name := Some ["Brian W. Kernighan"; "Dennis M. Ritchie"];
     d_cover_i := None;
     d_cover_edition_key := None;
     d_first_publish_year := Some 1978;
     d_isbn := Some ["9780131103627"; "0131103628"] |}.

End Sample.


(** ** open_openlibrary_page (lines 217-227) *)

(** What the action reports, and the URLs it handed to the browser. *)
Record opening : Type := mkOpening {
  message : string;
  opened : list string
}.

(** [webbrowser_open url] is [None] when [webbrowser.open(url)] returns, and
    [Some text] when it raises an exception [e] with [str(e) = text]. *)
Definition open_openlibrary_page (webbrowser_open : string -> option string)
    (book_key : Py.pyval) : opening :=
  if negb (Py.truthy book_key) then mkOpening "No book key provided" []
  else
    let openlibrary_url := "https://openlibrary.org" ++ Py.str book_key in
    match webbrowser_open openlibrary_url with
    | None => mkOpening ("Opened: " ++ openlibrary_url) [openlibrary_url]
    | Some text =>
        mkOpening ("Failed to open book page: " ++ text) [openlibrary_url]
    end.

(** The call that the launcher makes for a [JsonRPCAction] of a result
    item (lines 258-259 of [main]): the method is looked up by name and gets
    the first parameter, or the empty string when there is none. *)
Definition run_action (webbrowser_open : string -> option string)
    (action : string * list (option string)) : option opening :=
  let (method, parameters) := action in
  if (method =? "open_openlibrary_page")%string
  then Some (open_openlibrary_page webbrowser_open
               match parameters with
               | p :: _ => of_str p
               | [] => Py.PStr ""
               end)
  else None.

(** ** Further notions used by the properties *)

(** The file that [Os.write_file] leaves for [content] at time [now]. *)
Definition stored (content : list Byte.byte) (now : Z) : file :=
  mkFile Regular (Z.of_nat (List.length content)) now Sound.

(** [w'] differs from [w] in the entry [name] at most, trace apart. *)
Definition touches_only (name : string) (w w' : world) : Prop :=
  clock w' = clock w /\
  (cache_dir w = None -> cache_dir w' = None) /\
  forall n, n <> name -> stat n w' = stat n w.

(** An icon that the launcher can show: one of the two icons shipped with
    the plugin, or a cache file that is there and larger than 1000 bytes. *)
Definition icon_exists (w : world) (icon : path) : Prop :=
  match icon with
  | CacheFile name => valid_cover name w
  | _ => True
  end.

(** The result item of a record whose cover resolved to [icon]. *)
Definition item_of (book_data : book_info) (icon : path) : result_item :=
  {| Title := title book_data;
     SubTitle := subtitle_of (author_name book_data) (first_publish_year book_data);
     IcoPath := icon;
     JsonRPCAction := Some ("open_openlibrary_page", [key book_data]) |}.

(** The result items of records and the icons their covers resolved to. *)
Definition items_of (books : list book_info) (icons : list path) : list result_item :=
  map (fun bi => item_of (fst bi) (snd bi)) (combine books icons).

(** The first listed URL whose body passes the size check. *)
Definition first_cover (net : remote) (urls : list string) : option string :=
  find (yields_cover net) urls.

(** ** More sample data *)

Module Demo.

Definition hit (name : string) (cover : option Z) : doc :=
  {| d_key := Some ("/works/" ++ name);
     d_title := Some name;
     d_author_name := Some ["Frank Herbert"];
     d_cover_i := cover;
     d_cover_edition_key := None;
     d_first_publish_year := Some 1965;
     d_isbn := None |}.

(** Six hits, one more than the plugin shows. *)
Definition dune_docs : list doc :=
  [hit "Dune" (Some 11); hit "Dune Messiah" None;
   hit "Children of Dune" None; hit "God Emperor of Dune" None;
   hit "Heretics of Dune" None; hit "Chapterhouse: Dune" None].

(** A catalogue that answers the search for "dune" and nothing else; no
    cover can be fetched. *)
Definition catalogue : remote :=
  mkRemote (fun u => if (u =? api_url "dune")%string then Some [] else None)
           (fun _ => Some (mkData (Some dune_docs))).

(** A server whose answers are not JSON. *)
Definition garbled : remote :=
  mkRemote (fun _ => Some []) (fun _ => None).

(** A browser that opens every page. *)
Definition browser (url : string) : option string := None.

End Demo.

(** * Properties *)

Local Open Scope list_scope.

(** ** Strings *)



Lemma lstrip_blank (s : string) : Py.blank s = true -> Py.lstrip s = "".
Proof.
  induction s as [|c s IH]; cbn; [reflexivity|].
  destruct (Py.isspace c); cbn; [exact IH | discriminate].
Qed.

Lemma strip_blank (s : string) : Py.blank s = true -> Py.strip s = "".
Proof. intros H. unfold Py.strip. now rewrite lstrip_blank. Qed.

Lemma rstrip_empty (s : string) : Py.rstrip s = "" -> Py.blank s = true.
Proof.
  induction s as [|c s IH]; cbn; [reflexivity|].
  destruct (Py.rstrip s) eqn:E; [|discriminate].
  destruct (Py.isspace c); [intros _; now apply IH | discriminate].
Qed.

Lemma lstrip_keeps_blank (s : string) :
  Py.blank (Py.lstrip s) = true -> Py.blank s = true.
Proof.
  induction s as [|c s IH]; cbn; [reflexivity|].
  destruct (Py.isspace c) eqn:E; cbn; [exact IH|].
  now rewrite E.
Qed.

(** [strip] returns the empty string exactly on the blank strings. *)
Lemma strip_empty_iff (s : string) : Py.strip s = "" <-> Py.blank s = true.
Proof.
  split; [|apply strip_blank].
  intros H. apply lstrip_keeps_blank, rstrip_empty, H.
Qed.

(** ** Lists, traces and directories *)

Lemma net_calls_app (s t : list event) :
  net_calls (s ++ t) = (net_calls s ++ net_calls t)%list.
Proof.
  induction s as [|e s IH]; [reflexivity|].
  destruct e; cbn; now rewrite IH.
Qed.

Lemma skipn_length_app {A} (s t : list A) : skipn (List.length s) (s ++ t) = t.
Proof. induction s; [reflexivity | assumption]. Qed.

Lemma tried_prefix (ok : string -> bool) (urls : list string) :
  exists k, tried ok urls = firstn k urls /\
            (urls <> [] -> (1 <= k)%nat).
Proof.
  induction urls as [|u urls [k [IH _]]].
  - exists O. split; [reflexivity | congruence].
  - cbn. destruct (ok u).
    + exists 1%nat. split; [reflexivity | lia].
    + exists (S k). split; [cbn; now rewrite IH | lia].
Qed.

Lemma tried_all (ok : string -> bool) (urls : list string) :
  existsb ok urls = false -> tried ok urls = urls.
Proof.
  induction urls as [|u urls IH]; [reflexivity|].
  cbn. destruct (ok u); cbn; [discriminate|].
  intros H. now rewrite IH.
Qed.

Lemma lookup_store (name : string) (f : file) (d : directory) :
  Dir.lookup name (Dir.store name f d) = Some f.
Proof.
  induction d as [|[n g] d IH]; cbn.
  - now rewrite String.eqb_refl.
  - destruct (n =? name)%string eqn:E; cbn; rewrite E; [reflexivity | exact IH].
Qed.

Lemma lookup_In (name : string) (f : file) (d : directory) :
  NoDup (Dir.names d) -> In (name, f) d -> Dir.lookup name d = Some f.
Proof.
  induction d as [|[n g] d IH]; cbn; [contradiction|].
  intros Hnd [Heq | Hin].
  - injection Heq as -> ->. now rewrite String.eqb_refl.
  - inversion Hnd as [|? ? Hn Hd]; subst.
    destruct (n =? name)%string eqn:E.
    + apply String.eqb_eq in E. subst n. exfalso. apply Hn.
      change name with (fst (name, f)). now apply in_map.
    + now apply IH.
Qed.

Lemma lookup_absent (name : string) (d : directory) :
  ~ In name (Dir.names d) -> Dir.lookup name d = None.
Proof.
  induction d as [|[n g] d IH]; cbn; [reflexivity|].
  intros H. destruct (n =? name)%string eqn:E.
  - apply String.eqb_eq in E. tauto.
  - apply IH. tauto.
Qed.

Lemma delete_absent (name : string) (d : directory) :
  ~ In name (Dir.names d) -> Dir.delete name d = d.
Proof.
  induction d as [|[n g] d IH]; cbn; [reflexivity|].
  intros H. destruct (n =? name)%string eqn:E.
  - apply String.eqb_eq in E. tauto.
  - f_equal. apply IH. tauto.
Qed.

Lemma lookup_app_r (name : string) (s t : directory) :
  ~ In name (Dir.names s) -> Dir.lookup name (s ++ t) = Dir.lookup name t.
Proof.
  induction s as [|[n g] s IH]; cbn; [reflexivity|].
  intros H. destruct (n =? name)%string eqn:E.
  - apply String.eqb_eq in E. tauto.
  - apply IH. tauto.
Qed.

Lemma delete_app (name : string) (s t : directory) :
  Dir.delete name (s ++ t) = (Dir.delete name s ++ Dir.delete name t)%list.
Proof.
  induction s as [|[n g] s IH]; cbn; [reflexivity|].
  destruct (n =? name)%string; cbn; now rewrite IH.
Qed.

(** ** Running the primitives *)

Ltac unfold_monad :=
  unfold bind, ret, raise, try_except, emit, get_world, set_dir in *.

Ltac break_match :=
  match goal with
  | |- context [match ?x with _ => _ end] => destruct x eqn:?
  end.

Lemma requests_of_logged {A} (m : M A) (w w' : world) (new : list string) :
  snd (m w) = w' ->
  net_calls (trace w') = net_calls (trace w) ++ new ->
  requests_of m w = new.
Proof.
  intros Hrun Hcalls. unfold requests_of.
  rewrite Hrun, Hcalls. apply skipn_length_app.
Qed.

Lemma existsb_same {A} (p q : A -> bool) (l : list A) :
  (forall x, p x = q x) -> existsb p l = existsb q l.
Proof. intros H. induction l as [|x l IH]; cbn; [reflexivity | now rewrite H, IH]. Qed.

Lemma tried_same (p q : string -> bool) (l : list string) :
  (forall x, p x = q x) -> tried p l = tried q l.
Proof. intros H. induction l as [|x l IH]; cbn; [reflexivity | now rewrite H, IH]. Qed.

Section Download.

Variable net : remote.
Variable save_name : string.

(** One attempt requests its URL once, never raises, and changes the
    cache only when it stores a cover. *)
Lemma try_url_spec (url : string) (w : world) :
  exists w',
    try_url net save_name url w = (Ok (accepted net save_name w url), w') /\
    net_calls (trace w') = net_calls (trace w) ++ [url] /\
    (if accepted net save_name w url then valid_cover save_name w' else cache_dir w' = cache_dir w).
Proof.
  unfold try_url, urlopen, Os.write_file, accepted, yields_cover, writable,
    valid_cover, stat, entries.
  unfold_monad. cbn.
  destruct (urlopen_read net url) as [content|]; cbn.
  2:{ eexists. split; [reflexivity|]. cbn. now rewrite net_calls_app. }
  destruct (is_cover content) eqn:Hc; cbn.
  2:{ eexists. split; [reflexivity|]. cbn. now rewrite net_calls_app. }
  unfold is_cover in Hc. apply Z.ltb_lt in Hc.
  destruct (cache_dir w) as [d|]; cbn.
  2:{ eexists. split; [reflexivity|]. cbn.
      now rewrite !net_calls_app, app_nil_r. }
  destruct (Dir.lookup save_name d) as [f|] eqn:Hl; cbn.
  - destruct (f_kind f), (f_hazard f); cbn;
      eexists; (split; [reflexivity|]); cbn;
      rewrite !net_calls_app, ?app_nil_r; cbn;
      (split; [reflexivity|]); try reflexivity;
      eexists; rewrite lookup_store; (split; [reflexivity|]);
      cbn; (split; [assumption | discriminate]).
  - eexists. split; [reflexivity|]. cbn.
    rewrite !net_calls_app, app_nil_r. split; [reflexivity|].
    eexists. rewrite lookup_store. split; [reflexivity|].
    cbn. split; [assumption | discriminate].
Qed.

Lemma accepted_same_dir (w w' : world) (url : string) :
  cache_dir w' = cache_dir w -> accepted net save_name w' url = accepted net save_name w url.
Proof. unfold accepted, writable. now intros ->. Qed.

(** The loop requests the listed URLs in order, up to and including the
    first accepted one. *)
Lemma try_urls_spec (urls : list string) (w : world) :
  exists w',
    try_urls net save_name urls w = (Ok (existsb (accepted net save_name w) urls), w') /\
    net_calls (trace w') = net_calls (trace w) ++ tried (accepted net save_name w) urls /\
    (if existsb (accepted net save_name w) urls then valid_cover save_name w'
     else cache_dir w' = cache_dir w).
Proof.
  revert w. induction urls as [|url urls IH]; intros w.
  - exists w. cbn. now rewrite app_nil_r.
  - destruct (try_url_spec url w) as (w1 & Hrun & Hcalls & Hpost).
    cbn [try_urls existsb tried]. unfold bind at 1. rewrite Hrun.
    destruct (accepted net save_name w url) eqn:Hacc; cbn.
    + exists w1. auto.
    + destruct (IH w1) as (w2 & Hrun2 & Hcalls2 & Hpost2).
      assert (Hsame : forall u, accepted net save_name w1 u = accepted net save_name w u)
        by (intros u; now apply accepted_same_dir).
      rewrite (existsb_same _ _ urls Hsame) in Hrun2, Hpost2.
      exists w2. split; [exact Hrun2|]. split.
      * rewrite Hcalls2, Hcalls, <- app_assoc. cbn.
        now rewrite (tried_same _ _ urls Hsame).
      * destruct (existsb (accepted net save_name w) urls); [exact Hpost2|].
        now rewrite Hpost2.
Qed.

End Download.

(** ** The cache look-up *)

Lemma lookup_delete (name : string) (d : directory) :
  Dir.lookup name (Dir.delete name d) = None.
Proof.
  induction d as [|[n g] d IH]; cbn; [reflexivity|].
  destruct (n =? name)%string eqn:E; cbn; [exact IH | now rewrite E].
Qed.

(** A valid file is a hit: nothing is requested and the cache is left as it
    is. *)
Lemma cached_cover_valid_hit (name : string) (w : world) :
  valid_cover name w ->
  exists w', cached_cover_valid name w = (Ok true, w') /\
             cache_dir w' = cache_dir w /\
             net_calls (trace w') = net_calls (trace w).
Proof.
  intros (f & Hstat & Hsize & Hhaz).
  destruct w as [[d|] c t]; unfold stat, entries in Hstat; cbn in Hstat;
    [|discriminate].
  apply Z.ltb_lt in Hsize.
  unfold cached_cover_valid, Os.path_exists, Os.path_getsize, Os.stat_now.
  unfold_monad. unfold stat, entries. cbn -[Z.ltb]. rewrite Hstat.
  destruct (f_hazard f) eqn:Hh; try congruence;
    repeat (progress (cbn -[Z.ltb]; rewrite ?Hstat, ?Hh, ?Hsize));
    eexists; (split; [reflexivity|]); cbn -[Z.ltb];
    rewrite !net_calls_app, !app_nil_r; auto.
Qed.

(** The look-up never raises; it answers [true] only on a valid file, and
    then changes nothing; it requests nothing. *)
Lemma cached_cover_valid_spec (name : string) (w : world) :
  exists b w', cached_cover_valid name w = (Ok b, w') /\
               net_calls (trace w') = net_calls (trace w) /\
               (b = true -> valid_cover name w /\ cache_dir w' = cache_dir w).
Proof.
  destruct w as [[d|] c t];
    unfold cached_cover_valid, Os.path_exists, Os.path_getsize, Os.remove,
      Os.stat_now, valid_cover;
    unfold_monad; unfold stat, entries; cbn -[Z.ltb].
  2:{ do 2 eexists. split; [reflexivity|]. cbn -[Z.ltb].
      rewrite net_calls_app, app_nil_r. split; [reflexivity | discriminate]. }
  destruct (Dir.lookup name d) as [f|] eqn:Hl; cbn -[Z.ltb].
  2:{ do 2 eexists. split; [reflexivity|]. cbn -[Z.ltb].
      rewrite net_calls_app, app_nil_r. split; [reflexivity | discriminate]. }
  rewrite Hl.
  destruct (f_hazard f) eqn:Hh; cbn -[Z.ltb];
    try (destruct (1000 <? f_size f) eqn:Hs; cbn -[Z.ltb]; rewrite ?Hl, ?Hh; cbn -[Z.ltb]);
    try (destruct (f_kind f); cbn -[Z.ltb]);
    do 2 eexists; (split; [reflexivity|]); cbn -[Z.ltb];
    rewrite !net_calls_app, ?app_nil_r; (split; [reflexivity|]);
    try discriminate;
    intros _; (split; [|reflexivity]);
    exists f; rewrite Hh; apply Z.ltb_lt in Hs;
    (split; [reflexivity | split; [assumption | discriminate]]).
Qed.

Lemma valid_cover_same_dir (name : string) (w w' : world) :
  cache_dir w' = cache_dir w -> valid_cover name w -> valid_cover name w'.
Proof. unfold valid_cover, stat, entries. now intros ->. Qed.

(** ** The resolver *)

Section Resolver.

Variable net : remote.

(** A run that returns a cache path leaves a valid file under it. *)
Lemma get_cover_image_cached (cover_id isbn : Py.pyval) (w w' : world) (p : string) :
  get_cover_image net cover_id isbn w = (Ok (CacheFile p), w') ->
  p = cached_cover_name cover_id isbn /\
  (Py.truthy cover_id || Py.truthy isbn) = true /\
  valid_cover p w'.
Proof.
  unfold get_cover_image.
  destruct (negb (Py.truthy cover_id) && negb (Py.truthy isbn)) eqn:Hg;
    [cbn; discriminate|].
  assert (Ht : (Py.truthy cover_id || Py.truthy isbn) = true)
    by (destruct (Py.truthy cover_id), (Py.truthy isbn); auto; discriminate).
  cbv zeta. unfold bind at 1.
  destruct (cached_cover_valid_spec (cached_cover_name cover_id isbn) w)
    as (b & w1 & Hrun & _ & Hhit).
  rewrite Hrun. destruct b.
  - cbn. intros H. injection H as <- <-.
    destruct (Hhit eq_refl) as [Hv Hsame].
    repeat split; auto. now apply (valid_cover_same_dir _ w).
  - unfold download_cover, bind.
    destruct (try_urls_spec net (cached_cover_name cover_id isbn)
                (urls_to_try cover_id isbn) w1) as (w2 & Hrun2 & _ & Hpost).
    rewrite Hrun2. destruct (existsb _ _); cbn; [|discriminate].
    intros H. injection H as <- <-. auto.
Qed.

End Resolver.

(** ** The eviction sweep *)

Lemma delete_middle (n : string) (f : file) (s t : directory) :
  ~ In n (Dir.names s) -> ~ In n (Dir.names t) ->
  Dir.delete n (s ++ (n, f) :: t) = s ++ t.
Proof.
  intros Hs Ht. rewrite delete_app, (delete_absent _ _ Hs). cbn.
  now rewrite String.eqb_refl, (delete_absent _ _ Ht).
Qed.

Lemma lookup_middle (n : string) (f : file) (s t : directory) :
  ~ In n (Dir.names s) -> Dir.lookup n (s ++ (n, f) :: t) = Some f.
Proof.
  intros Hs. rewrite (lookup_app_r _ _ _ Hs). cbn.
  now rewrite String.eqb_refl.
Qed.

(** One round of the sweep on the entry [(n, f)] of the listing. *)
Lemma sweep_file_spec (now : Z) (n : string) (f : file)
    (s t : directory) (w : world) :
  cache_dir w = Some (s ++ (n, f) :: t) ->
  ~ In n (Dir.names s) -> ~ In n (Dir.names t) ->
  exists w',
    sweep_file now n w = ((if faults now f then Raised else Ok tt), w') /\
    clock w' = clock w /\
    cache_dir w' =
      Some (s ++ if faults now f
                 then match f_hazard f with Vanishing => t | _ => (n, f) :: t end
                 else if evicted now f then t else (n, f) :: t).
Proof.
  intros Hd Hs Ht. destruct w as [d c tr]. cbn in Hd. subst d.
  pose proof (lookup_middle n f s t Hs) as Hl.
  pose proof (delete_middle n f s t Hs Ht) as Hdel.
  unfold sweep_file, Os.path_isfile, Os.path_getmtime, Os.remove, Os.stat_now,
    faults, evicted, expired, is_regular.
  unfold_monad. unfold stat, entries. cbn -[Z.ltb age_limit_seconds]. rewrite Hl.
  destruct (f_kind f) eqn:Hk; cbn -[Z.ltb age_limit_seconds].
  2:{ eexists. split; [reflexivity|]. now cbn. }
  rewrite Hl.
  destruct (f_hazard f) eqn:Hh; cbn -[Z.ltb age_limit_seconds].
  - destruct (age_limit_seconds <? now - f_mtime f) eqn:He;
      repeat (progress (cbn -[Z.ltb age_limit_seconds]; rewrite ?Hl, ?Hh, ?Hk, ?Hdel));
      eexists; (split; [reflexivity|]); now cbn.
  - rewrite Hdel. eexists. split; [reflexivity|]. now cbn.
  - destruct (age_limit_seconds <? now - f_mtime f) eqn:He;
      repeat (progress (cbn -[Z.ltb age_limit_seconds]; rewrite ?Hl, ?Hh, ?Hk, ?Hdel));
      eexists; (split; [reflexivity|]); now cbn.
Qed.

Lemma names_app (s t : directory) :
  Dir.names (s ++ t) = Dir.names s ++ Dir.names t.
Proof. apply map_app. Qed.

(** The loop over the listing computes [swept]. *)
Lemma sweep_loop (now : Z) (t s : directory) (w : world) :
  cache_dir w = Some (s ++ t) ->
  NoDup (Dir.names (s ++ t)) ->
  exists w',
    for_each (Dir.names t) (sweep_file now) w =
      ((if fst (swept now t) then Ok tt else Raised), w') /\
    clock w' = clock w /\
    cache_dir w' = Some (s ++ snd (swept now t)).
Proof.
  revert s w. induction t as [|[n f] t IH]; intros s w Hd Hnd.
  - exists w. cbn. auto.
  - assert (Hs : ~ In n (Dir.names s)).
    { rewrite names_app in Hnd. cbn in Hnd.
      apply NoDup_remove_2 in Hnd. intros H. apply Hnd, in_or_app. now left. }
    assert (Ht : ~ In n (Dir.names t)).
    { rewrite names_app in Hnd. cbn in Hnd.
      apply NoDup_remove_2 in Hnd. intros H. apply Hnd, in_or_app. now right. }
    destruct (sweep_file_spec now n f s t w Hd Hs Ht) as (w1 & Hrun & Hclock & Hd1).
    cbn [Dir.names map fst for_each swept]. unfold bind. rewrite Hrun.
    destruct (faults now f) eqn:Hf.
    + exists w1. cbn. auto.
    + destruct (evicted now f) eqn:He.
      * destruct (IH s w1 Hd1) as (w2 & Hrun2 & Hclock2 & Hd2).
        { rewrite names_app in *. cbn in Hnd. now apply NoDup_remove_1 in Hnd. }
        fold (Dir.names t). rewrite Hrun2.
        destruct (swept now t) as [fin rest]. cbn in *.
        exists w2. rewrite Hclock2. auto.
      * destruct (IH (s ++ [(n, f)]) w1) as (w2 & Hrun2 & Hclock2 & Hd2).
        { now rewrite <- app_assoc. }
        { now rewrite <- app_assoc. }
        fold (Dir.names t). rewrite Hrun2.
        destruct (swept now t) as [fin rest]. cbn in *.
        exists w2. rewrite Hclock2, Hd2, <- app_assoc. auto.
Qed.

(** The whole sweep: it never raises, and the cache ends as [swept] says. *)
Lemma cleanup_image_cache_spec (w : world) (d : directory) :
  cache_dir w = Some d ->
  NoDup (Dir.names d) ->
  exists w',
    cleanup_image_cache w = (Ok tt, w') /\
    cache_dir w' = Some (snd (swept (clock w) d)).
Proof.
  intros Hd Hnd. unfold cleanup_image_cache, Os.path_isdir, Os.time, Os.listdir.
  unfold_monad. cbn. rewrite Hd. cbn.
  set (w0 := {| cache_dir := Some d; clock := clock w;
                trace := (trace w ++ [FsIsDir]) ++ [FsListDir] |}).
  destruct (sweep_loop (clock w) d [] w0 eq_refl Hnd) as (w1 & Hrun & _ & Hd1).
  rewrite Hrun. destruct (fst (swept (clock w) d)); eexists; split;
    try reflexivity; exact Hd1.
Qed.

Lemma cleanup_image_cache_total (w : world) :
  fst (cleanup_image_cache w) = Ok tt.
Proof.
  unfold cleanup_image_cache, Os.path_isdir, Os.time.
  unfold bind at 1 2 3 4 5. unfold try_except, emit, get_world, ret. cbn.
  destruct (cache_dir w); cbn; [|reflexivity].
  match goal with
  | |- context [let (_, _) := ?m in _] => destruct m as [[[]|] w']
  end; reflexivity.
Qed.

(** *** What [swept] leaves *)

Lemma lookup_app (n : string) (s t : directory) :
  Dir.lookup n (s ++ t) =
  match Dir.lookup n s with Some f => Some f | None => Dir.lookup n t end.
Proof.
  induction s as [|[m g] s IH]; cbn; [reflexivity|].
  now destruct (m =? n)%string.
Qed.

Lemma In_names (n : string) (f : file) (d : directory) :
  In (n, f) d -> In n (Dir.names d).
Proof. intros H. change n with (fst (n, f)). now apply in_map. Qed.

Lemma NoDup_app_disjoint {A} (x : A) (s t : list A) :
  NoDup (s ++ t) -> In x s -> In x t -> False.
Proof.
  induction s as [|a s IH]; cbn; [tauto|].
  intros Hnd [->|Hs] Ht.
  - inversion Hnd; subst. apply H1, in_or_app. now right.
  - inversion Hnd; subst. now apply IH.
Qed.

Lemma names_survivors (now : Z) (n : string) (d : directory) :
  In n (Dir.names (survivors now d)) -> In n (Dir.names d).
Proof.
  unfold Dir.names, survivors. rewrite !in_map_iff.
  intros (x & Hx & Hin). apply filter_In in Hin. exists x. tauto.
Qed.

Lemma stat_survivors (now : Z) (n : string) (f : file) (d : directory) :
  NoDup (Dir.names d) -> In (n, f) d ->
  Dir.lookup n (survivors now d) = if evicted now f then None else Some f.
Proof.
  induction d as [|[m g] d IH]; cbn; [contradiction|].
  intros Hnd Hin. inversion Hnd as [|? ? Hm Hd]; subst.
  destruct Hin as [Heq | Hin].
  - injection Heq as -> ->. destruct (evicted now f); cbn.
    + apply lookup_absent. intros H. now apply Hm, (names_survivors now).
    + now rewrite String.eqb_refl.
  - assert (Hne : (m =? n)%string = false).
    { apply String.eqb_neq. intros ->. now apply Hm, (In_names n f). }
    destruct (evicted now g); cbn; rewrite ?Hne; now apply IH.
Qed.

Lemma swept_no_fault (now : Z) (d : directory) :
  (forall n f, In (n, f) d -> faults now f = false) ->
  swept now d = (true, survivors now d).
Proof.
  induction d as [|[m g] d IH]; cbn; [reflexivity|].
  intros H. rewrite (H m g) by now left.
  rewrite IH by (intros n f Hin; apply (H n f); now right).
  now destruct (evicted now g).
Qed.

Lemma swept_fault (now : Z) (pre post : directory) (c : string) (g : file) :
  (forall n f, In (n, f) pre -> faults now f = false) ->
  faults now g = true ->
  swept now (pre ++ (c, g) :: post) =
  (false, survivors now pre ++
          match f_hazard g with Vanishing => post | _ => (c, g) :: post end).
Proof.
  induction pre as [|[m h] pre IH]; cbn; intros H Hg.
  - now rewrite Hg.
  - rewrite (H m h) by now left.
    rewrite IH by (try assumption; intros n f Hin; apply (H n f); now right).
    now destruct (evicted now h).
Qed.

(** ** The cache key *)




(** ** The download loop *)

Section DownloadClaims.

Variable net : remote.

Lemma download_cover_requests (cover_id isbn : Py.pyval) (save_name : string)
    (w : world) :
  requests_of (download_cover net cover_id save_name isbn) w =
  tried (accepted net save_name w) (urls_to_try cover_id isbn).
Proof.
  unfold download_cover.
  destruct (try_urls_spec net save_name (urls_to_try cover_id isbn) w)
    as (w' & Hrun & Hcalls & _).
  apply (requests_of_logged _ _ w'); [now rewrite Hrun | exact Hcalls].
Qed.

(** When no entry is accepted, every entry of the list is requested,
    repeated entries as often as they are listed. *)
Lemma download_cover_exhausts (cover_id isbn : Py.pyval) (save_name : string)
    (w : world) :
  existsb (accepted net save_name w) (urls_to_try cover_id isbn) = false ->
  requests_of (download_cover net cover_id save_name isbn) w =
  urls_to_try cover_id isbn.
Proof. intros H. rewrite download_cover_requests. now apply tried_all. Qed.

(** C1, as the code has it.  The loop requests the entries of the list in
    the listed order, one request per entry, and stops after the first entry
    whose body is accepted: the requests are a prefix of the list.  The list
    is not deduplicated, so a URL that is listed twice is requested twice
    unless its first request is accepted. *)
Theorem C1_attempts_follow_the_list (cover_id isbn : Py.pyval)
    (save_name : string) (w : world) :
  let urls := urls_to_try cover_id isbn in
  let attempts := requests_of (download_cover net cover_id save_name isbn) w in
  attempts = tried (accepted net save_name w) urls /\
  exists k, attempts = firstn k urls.
Proof.
  cbv zeta. rewrite download_cover_requests. split; [reflexivity|].
  destruct (tried_prefix (accepted net save_name w) (urls_to_try cover_id isbn))
    as (k & Hk & _).
  now exists k.
Qed.


End DownloadClaims.

(** A decimal numeral never starts like an ISBN tag. *)
Lemma numeric_id_not_tag (n : Z) : is_isbn_tag (Py.PInt n) = false.
Proof.
  unfold is_isbn_tag, Py.startswith, Py.str, Py.str_int.
  destruct (Z.to_int n) as [d|d]; [|reflexivity].
  destruct d; reflexivity.
Qed.


(** The search itself produces such records: a hit that has ISBNs but no
    cover identifier gets the ISBN tag as its cover hint, and the URL of its
    first ISBN is then listed by two branches. *)
Lemma isbn_only_doc_lists_url_twice :
  let book := book_of_doc Sample.isbn_only_doc in
  cover_id book = Sample.isbn_tagged /\
  isbn book = Sample.the_isbn /\
  urls_to_try (cover_id book) (isbn book) =
    ["https://covers.openlibrary.org/b/isbn/9780131103627-M.jpg";
     "https://covers.openlibrary.org/b/isbn/9780131103627-M.jpg"].
Proof. repeat split. Qed.

(** C1, as the specification has it, fails: with an ISBN tag as the only
    cover hint and the same ISBN in the [isbn] field, the ISBN URL is listed
    twice, and an unreachable server is asked twice. *)
Lemma C1_same_url_attempted_twice :
  ~ each_url_attempted_once Sample.offline Sample.isbn_tagged Sample.the_isbn
      Sample.empty_cache.
Proof.
  unfold each_url_attempted_once.
  assert (H : requests_of (get_cover_image Sample.offline Sample.isbn_tagged
                             Sample.the_isbn) Sample.empty_cache =
              ["https://covers.openlibrary.org/b/isbn/9780131103627-M.jpg";
               "https://covers.openlibrary.org/b/isbn/9780131103627-M.jpg"])
    by (vm_compute; reflexivity).
  rewrite H. intros Hnd. inversion Hnd as [|? ? Hnotin _]; subst.
  apply Hnotin. now left.
Qed.

(** ** The resolver and its cache *)

(** C5.  The look-up never raises.  Unless the entry vanishes under its
    feet, it reports the entry present exactly when the entry exists and is
    larger than 1000 bytes; an undersized regular file that the system lets
    it remove is deleted, and reported absent. *)
Theorem C5_lookup_valid (name : string) (w : world) :
  let r := cached_cover_valid name w in
  (exists present, fst r = Ok present) /\
  ((forall f, stat name w = Some f -> f_hazard f <> Vanishing) ->
   (fst r = Ok true <-> exists f, stat name w = Some f /\ 1000 < f_size f)) /\
  (forall f, stat name w = Some f ->
             f_kind f = Regular -> f_hazard f = Sound -> f_size f <= 1000 ->
             fst r = Ok false /\ stat name (snd r) = None).
Proof.
  cbv zeta.
  destruct (cached_cover_valid_spec name w) as (b & w' & Hrun & _ & Hhit).
  split; [exists b; now rewrite Hrun|]. split.
  - intros Hstable. split.
    + rewrite Hrun. cbn. intros [= ->].
      destruct (Hhit eq_refl) as [(f & Hf & Hsz & _) _]. now exists f.
    + intros (f & Hf & Hsz).
      destruct (cached_cover_valid_hit name w) as (w2 & Hrun2 & _).
      { exists f. auto. }
      now rewrite Hrun2.
  - intros f Hf Hk Hh Hsz. clear b w' Hrun Hhit.
    destruct w as [[d|] c t]; unfold stat, entries in *; cbn in Hf;
      [|discriminate].
    apply Z.ltb_ge in Hsz.
    unfold cached_cover_valid, Os.path_exists, Os.path_getsize, Os.remove,
      Os.stat_now.
    unfold_monad. unfold stat, entries.
    repeat (progress (cbn -[Z.ltb]; rewrite ?Hf, ?Hh, ?Hk, ?Hsz)).
    split; [reflexivity | apply lookup_delete].
Qed.

Lemma C5_lookup_valid_witness :
  (fst (cached_cover_valid "12345.jpg" Sample.two_covers) = Ok true <->
   exists f, stat "12345.jpg" Sample.two_covers = Some f /\ 1000 < f_size f) /\
  fst (cached_cover_valid "12345.jpg" Sample.stub_12345) = Ok false /\
  stat "12345.jpg" (snd (cached_cover_valid "12345.jpg" Sample.stub_12345)) = None.
Proof.
  split.
  - apply (proj1 (proj2 (C5_lookup_valid "12345.jpg" Sample.two_covers))).
    intros f [= <-]. discriminate.
  - apply (proj2 (proj2 (C5_lookup_valid "12345.jpg" Sample.stub_12345))
             (Sample.aged 500 1 Sound)); [reflexivity .. | cbn; lia].
Defined.

Lemma skipn_all_nil {A} (l : list A) : skipn (List.length l) l = [].
Proof. induction l; [reflexivity | assumption]. Qed.

Section ResolverClaims.

Variable net : remote.

(** C6.  When a call has returned a cache path, a second call on the same
    record returns the same path, requests nothing from the network and
    leaves the cache as it is. *)
Theorem C6_warm_cache_idempotent (cover_id isbn : Py.pyval) (w : world)
    (p : string) :
  fst (get_cover_image net cover_id isbn w) = Ok (CacheFile p) ->
  let w1 := snd (get_cover_image net cover_id isbn w) in
  fst (get_cover_image net cover_id isbn w1) = Ok (CacheFile p) /\
  requests_of (get_cover_image net cover_id isbn) w1 = [] /\
  cache_dir (snd (get_cover_image net cover_id isbn w1)) = cache_dir w1.
Proof.
  destruct (get_cover_image net cover_id isbn w) as [r w1] eqn:Hfirst.
  cbn [fst snd]. intros ->.
  destruct (get_cover_image_cached net _ _ _ _ _ Hfirst) as (-> & Ht & Hvalid).
  destruct (cached_cover_valid_hit _ _ Hvalid) as (w2 & Hrun & Hdir & Hcalls).
  assert (Hsecond : get_cover_image net cover_id isbn w1 =
                    (Ok (CacheFile (cached_cover_name cover_id isbn)), w2)).
  { unfold get_cover_image.
    destruct (Py.truthy cover_id), (Py.truthy isbn); try discriminate;
      cbn [negb andb]; cbv zeta; unfold bind; now rewrite Hrun. }
  cbv zeta. rewrite Hsecond. cbn [fst snd]. repeat split; [|exact Hdir].
  apply (requests_of_logged _ _ w2); [now rewrite Hsecond|].
  now rewrite Hcalls, app_nil_r.
Qed.

(** C7.  Without a cover hint and without an ISBN the resolver returns the
    default icon at once: the world is left as it was, so nothing is
    requested and the cache is not touched. *)
Theorem C7_no_hint_no_io (cover_id isbn : Py.pyval) (w : world) :
  Py.truthy cover_id = false ->
  Py.truthy isbn = false ->
  get_cover_image net cover_id isbn w = (Ok DefaultBookIcon, w) /\
  requests_of (get_cover_image net cover_id isbn) w = [] /\
  fs_calls_of (get_cover_image net cover_id isbn) w = [].
Proof.
  intros Hc Hi.
  assert (H : get_cover_image net cover_id isbn w = (Ok DefaultBookIcon, w))
    by (unfold get_cover_image; now rewrite Hc, Hi).
  unfold requests_of, fs_calls_of. rewrite H. cbn [snd].
  now rewrite !skipn_all_nil.
Qed.

End ResolverClaims.

Lemma C6_warm_cache_idempotent_witness :
  let net := Sample.serving "https://covers.openlibrary.org/b/isbn/9780131103627-M.jpg" in
  let resolve := get_cover_image net (Py.PInt 12345) Sample.the_isbn in
  fst (resolve (snd (resolve Sample.stub_12345))) = Ok (CacheFile "12345.jpg") /\
  requests_of resolve (snd (resolve Sample.stub_12345)) = [] /\
  cache_dir (snd (resolve (snd (resolve Sample.stub_12345)))) =
  cache_dir (snd (resolve Sample.stub_12345)).
Proof.
  exact (C6_warm_cache_idempotent
           (Sample.serving "https://covers.openlibrary.org/b/isbn/9780131103627-M.jpg")
           (Py.PInt 12345) Sample.the_isbn Sample.stub_12345 "12345.jpg" eq_refl).
Defined.

Lemma C7_no_hint_no_io_witness :
  get_cover_image Sample.offline Py.PNone (Py.PStr "") Sample.two_covers =
    (Ok DefaultBookIcon, Sample.two_covers) /\
  requests_of (get_cover_image Sample.offline Py.PNone (Py.PStr "")) Sample.two_covers = [] /\
  fs_calls_of (get_cover_image Sample.offline Py.PNone (Py.PStr "")) Sample.two_covers = [].
Proof.
  exact (C7_no_hint_no_io Sample.offline Py.PNone (Py.PStr "") Sample.two_covers
           eq_refl eq_refl).
Defined.

(** ** The query *)

Section QueryClaims.

Variable net : remote.

(** On a blank term the search returns the empty list before any call. *)
Lemma search_blank (term : string) (w : world) :
  Py.blank term = true -> search_openlibrary_api net term w = (Ok [], w).
Proof.
  intros H. unfold search_openlibrary_api, try_except.
  now rewrite (strip_blank term H).
Qed.

Lemma query_blank (term : string) (w : world) :
  Py.blank term = true ->
  query net term w =
  (Ok [if Py.is_empty term then start_typing else no_books_found term], w).
Proof.
  intros H. unfold query.
  destruct (Py.is_empty term); [reflexivity|].
  unfold bind. now rewrite (search_blank term w H).
Qed.

(** C8.  On an empty or white-space-only term the query returns exactly one
    item, a placeholder, and leaves the world as it was: nothing is
    requested. *)
Theorem C8_blank_term_one_placeholder (term : string) (w : world) :
  Py.blank term = true ->
  query net term w =
    (Ok [if Py.is_empty term then start_typing else no_books_found term], w) /\
  requests_of (query net term) w = [].
Proof.
  intros H. pose proof (query_blank term w H) as Hq.
  split; [exact Hq|].
  unfold requests_of. rewrite Hq. apply skipn_all_nil.
Qed.

Lemma process_book_data_action (book_data : book_info) (w w' : world)
    (item : result_item) :
  process_book_data net book_data w = (Ok item, w') ->
  JsonRPCAction item <> None.
Proof.
  unfold process_book_data, bind.
  destruct (get_cover_image net _ _ w) as [[cover|] w1]; [|discriminate].
  unfold ret. intros [= <- _]. discriminate.
Qed.

Lemma process_books_actions (api_results : list book_info)
    (results out : list result_item) (w w' : world) :
  Forall (fun item => JsonRPCAction item <> None) results ->
  process_books net api_results results w = (Ok out, w') ->
  Forall (fun item => JsonRPCAction item <> None) out.
Proof.
  revert results w. induction api_results as [|b rest IH]; intros results w Hres.
  - cbn. unfold ret. now intros [= <- _].
  - cbn [process_books]. unfold bind at 1. unfold try_except.
    unfold bind at 1.
    destruct (process_book_data net b w) as [[item|] w1] eqn:Hb; unfold ret.
    + apply IH. apply Forall_app. split; [assumption|].
      constructor; [|constructor]. eapply process_book_data_action, Hb.
    + now apply IH.
Qed.

(** C10.  A non-empty term of white space passes the empty-term test; the
    search strips it and returns the empty list, and the single item is the
    "No books found" placeholder with the term as typed, which is not the
    start-typing placeholder.  Only the empty term yields the start-typing
    placeholder. *)
Theorem C10_whitespace_term_no_books_found (term : string) (w : world) :
  term <> "" ->
  Py.blank term = true ->
  search_openlibrary_api net term w = (Ok [], w) /\
  query net term w = (Ok [no_books_found term], w) /\
  Title (no_books_found term) = ("No books found for '" ++ term ++ "'")%string /\
  no_books_found term <> start_typing /\
  (forall term' w', fst (query net term' w') = Ok [start_typing] <-> term' = "").
Proof.
  intros Hne Hb. split; [now apply search_blank|]. split.
  { rewrite (query_blank term w Hb). unfold Py.is_empty.
    destruct (term =? "")%string eqn:E; [|reflexivity].
    now apply String.eqb_eq in E. }
  split; [reflexivity|]. split; [discriminate|].
  intros term' w'. split; [|now intros ->].
  unfold query, Py.is_empty.
  destruct (term' =? "")%string eqn:E; [intros _; now apply String.eqb_eq in E|].
  unfold bind at 1.
  destruct (search_openlibrary_api net term' w') as [[api|] w1]; [|discriminate].
  unfold bind.
  destruct api as [|b rest].
  - cbn. discriminate.
  - destruct (process_books net (b :: rest) [] w1) as [[out|] w2] eqn:Hp;
      [|discriminate].
    pose proof (process_books_actions _ _ _ _ _ (Forall_nil _) Hp) as Hall.
    destruct out as [|item out]; cbn; [discriminate|].
    intros [= -> ->]. inversion Hall as [|? ? Hitem _]; subst.
    now elim Hitem.
Qed.

End QueryClaims.

Lemma C8_blank_term_one_placeholder_witness :
  query Sample.offline "   " Sample.two_covers =
    (Ok [no_books_found "   "], Sample.two_covers) /\
  requests_of (query Sample.offline "   ") Sample.two_covers = [].
Proof.
  exact (C8_blank_term_one_placeholder Sample.offline "   " Sample.two_covers
           eq_refl).
Defined.

Lemma C10_whitespace_term_no_books_found_witness :
  query Sample.offline "   " Sample.two_covers =
    (Ok [no_books_found "   "], Sample.two_covers).
Proof.
  refine (proj1 (proj2 (C10_whitespace_term_no_books_found Sample.offline "   "
                          Sample.two_covers _ eq_refl))).
  discriminate.
Defined.

(** ** Eviction *)


Lemma evicted_recent (now : Z) (f : file) :
  now - age_limit_seconds <= f_mtime f -> evicted now f = false.
Proof.
  intros Hnew. unfold evicted, expired.
  replace (age_limit_seconds <? now - f_mtime f) with false
    by (symmetry; apply Z.ltb_ge; lia).
  apply andb_false_r.
Qed.



(** C2, as the code has it.  The handler encloses the whole loop: a failure
    on one file is swallowed, the sweep never raises, but it ends there.
    The entries listed before the failing one have been dealt with, the
    expired regular files among them removed; every entry listed after it
    is still in the cache, expired or not. *)
Theorem C2_sweep_ends_at_first_failure (w : world) (pre post : directory)
    (culprit : string) (g : file) :
  cache_dir w = Some (pre ++ (culprit, g) :: post) ->
  NoDup (Dir.names (pre ++ (culprit, g) :: post)) ->
  (forall n f, In (n, f) pre -> faults (clock w) f = false) ->
  faults (clock w) g = true ->
  let r := cleanup_image_cache w in
  fst r = Ok tt /\
  (forall n f, In (n, f) pre ->
     stat n (snd r) = if evicted (clock w) f then None else Some f) /\
  (forall n f, In (n, f) post -> stat n (snd r) = Some f).
Proof.
  intros Hd Hnd Hpre Hg. cbv zeta.
  destruct (cleanup_image_cache_spec w _ Hd Hnd) as (w' & Hrun & Hd').
  rewrite Hrun. cbn [fst snd]. split; [reflexivity|].
  unfold stat, entries. rewrite Hd', (swept_fault _ _ _ _ _ Hpre Hg). cbn [snd].
  rewrite names_app in Hnd.
  change (Dir.names ((culprit, g) :: post)) with (culprit :: Dir.names post) in Hnd.
  pose proof (NoDup_app_remove_l _ _ Hnd) as Hnd_tail.
  pose proof (NoDup_app_remove_r _ _ Hnd) as Hnd_pre.
  inversion Hnd_tail as [|? ? Hc Hnd_post]; subst.
  split.
  - intros n f Hin. rewrite lookup_app, (stat_survivors _ _ _ _ Hnd_pre Hin).
    destruct (evicted (clock w) f); [|reflexivity].
    apply lookup_absent. intros Hn.
    apply (NoDup_app_disjoint n _ _ Hnd); [now apply (In_names n f)|].
    destruct (f_hazard g); [exact Hn | now right | exact Hn].
  - intros n f Hin.
    assert (Hn : ~ In n (Dir.names pre)).
    { intros H. apply (NoDup_app_disjoint n _ _ Hnd H).
      right. now apply (In_names n f). }
    rewrite lookup_app, lookup_absent
      by (intros H; now apply Hn, (names_survivors (clock w))).
    assert (Hpost : Dir.lookup n post = Some f) by now apply lookup_In.
    destruct (f_hazard g); cbn; rewrite ?Hpost; try reflexivity;
      (replace (culprit =? n)%string with false; [reflexivity|]);
      symmetry; apply String.eqb_neq; intros ->;
      now apply Hc, (In_names n f).
Qed.

Lemma C2_sweep_ends_at_first_failure_witness :
  let r := cleanup_image_cache Sample.locked_first in
  fst r = Ok tt /\
  stat "OL7353617M.jpg" (snd r) = Some (Sample.aged 30000 4 Sound).
Proof.
  assert (Hnd : NoDup (Dir.names (entries Sample.locked_first))).
  { repeat constructor; cbn; intuition discriminate. }
  pose proof (C2_sweep_ends_at_first_failure Sample.locked_first []
                [("OL7353617M.jpg", Sample.aged 30000 4 Sound)]
                "12345.jpg" (Sample.aged 20000 4 Locked)
                eq_refl Hnd (fun n f (H : In (n, f) []) => match H with end)
                eq_refl) as (Hok & _ & Hpost).
  split; [exact Hok|].
  apply Hpost. now left.
Defined.

(** C2, as the specification has it, fails: the first of two expired covers
    cannot be removed, and the second one is never looked at. *)
Lemma C2_sweep_abandons_later_files :
  ~ sweep_outlives_failure Sample.locked_first.
Proof.
  intros H.
  specialize (H "12345.jpg" (Sample.aged 20000 4 Locked) eq_refl eq_refl
                "OL7353617M.jpg" (Sample.aged 30000 4 Sound)).
  assert (Hstays : stat "OL7353617M.jpg"
                     (snd (cleanup_image_cache Sample.locked_first)) =
                   Some (Sample.aged 30000 4 Sound))
    by (vm_compute; reflexivity).
  assert (Hgone := H ltac:(discriminate) eq_refl eq_refl eq_refl).
  rewrite Hstays in Hgone. discriminate Hgone.
Qed.


(** * Further properties *)

(** ** Directories *)

Lemma lookup_store_other (n name : string) (f : file) (d : directory) :
  n <> name -> Dir.lookup n (Dir.store name f d) = Dir.lookup n d.
Proof.
  intros Hne. induction d as [|[m g] d IH]; cbn.
  - replace (name =? n)%string with false; [reflexivity|].
    symmetry. apply String.eqb_neq. congruence.
  - destruct (m =? name)%string eqn:E; cbn.
    + apply String.eqb_eq in E. subst m.
      replace (name =? n)%string with false; [reflexivity|].
      symmetry. apply String.eqb_neq. congruence.
    + now rewrite IH.
Qed.

Lemma lookup_delete_other (n name : string) (d : directory) :
  n <> name -> Dir.lookup n (Dir.delete name d) = Dir.lookup n d.
Proof.
  intros Hne. induction d as [|[m g] d IH]; cbn; [reflexivity|].
  destruct (m =? name)%string eqn:E; cbn.
  - apply String.eqb_eq in E. subst m.
    replace (name =? n)%string with false; [exact IH|].
    symmetry. apply String.eqb_neq. congruence.
  - now rewrite IH.
Qed.

Lemma touches_only_refl (name : string) (w : world) : touches_only name w w.
Proof. repeat split; auto. Qed.

Lemma touches_only_trans (name : string) (w1 w2 w3 : world) :
  touches_only name w1 w2 -> touches_only name w2 w3 -> touches_only name w1 w3.
Proof.
  intros (Hc1 & Hn1 & Hf1) (Hc2 & Hn2 & Hf2). repeat split.
  - congruence.
  - auto.
  - intros n Hn. now rewrite Hf2, Hf1.
Qed.

Lemma touches_only_same_dir (name : string) (w w' : world) :
  clock w' = clock w -> cache_dir w' = cache_dir w -> touches_only name w w'.
Proof.
  intros Hc Hd. repeat split; [assumption | congruence |].
  intros n _. unfold stat, entries. now rewrite Hd.
Qed.

(** ** The download loop, in full *)

Section DownloadFull.

Variable net : remote.
Variable save_name : string.

(** One attempt: what it answers, requests, stores and leaves alone. *)
Lemma try_url_full (url : string) (w : world) :
  exists w',
    try_url net save_name url w = (Ok (accepted net save_name w url), w') /\
    net_calls (trace w') = net_calls (trace w) ++ [url] /\
    touches_only save_name w w' /\
    (if accepted net save_name w url
     then exists content, urlopen_read net url = Some content /\
                          stat save_name w' = Some (stored content (clock w))
     else cache_dir w' = cache_dir w).
Proof.
  destruct w as [dir c t].
  unfold try_url, urlopen, Os.write_file, accepted, yields_cover, writable,
    touches_only, stored, stat, entries.
  unfold_monad. cbn.
  destruct (urlopen_read net url) as [content|]; cbn.
  2:{ eexists. split; [reflexivity|]. cbn. rewrite net_calls_app. auto. }
  destruct (is_cover content) eqn:Hc; cbn.
  2:{ eexists. split; [reflexivity|]. cbn. rewrite net_calls_app. auto. }
  destruct dir as [d|]; cbn.
  2:{ eexists. split; [reflexivity|]. cbn.
      rewrite !net_calls_app, app_nil_r. auto. }
  destruct (Dir.lookup save_name d) as [f|] eqn:Hl; cbn.
  - destruct (f_kind f), (f_hazard f); cbn;
      eexists; (split; [reflexivity|]); cbn;
      rewrite !net_calls_app, ?app_nil_r; cbn;
      (split; [reflexivity|]); auto;
      (split;
       [ split; [reflexivity|]; split; [discriminate|];
         intros n Hn; rewrite lookup_store_other, ?lookup_delete_other; auto
       | exists content; now rewrite lookup_store ]).
  - eexists. split; [reflexivity|]. cbn.
    rewrite !net_calls_app, app_nil_r. split; [reflexivity|]. split.
    + split; [reflexivity|]. split; [discriminate|].
      intros n Hn. now rewrite lookup_store_other.
    + exists content. now rewrite lookup_store.
Qed.

Lemma find_same {A} (p q : A -> bool) (l : list A) :
  (forall x, p x = q x) -> find p l = find q l.
Proof. intros H. induction l as [|x l IH]; cbn; [reflexivity | now rewrite H, IH]. Qed.

(** The loop: the first accepted URL decides what is stored. *)
Lemma try_urls_full (urls : list string) (w : world) :
  exists w',
    try_urls net save_name urls w =
      (Ok (existsb (accepted net save_name w) urls), w') /\
    net_calls (trace w') =
      net_calls (trace w) ++ tried (accepted net save_name w) urls /\
    touches_only save_name w w' /\
    match find (accepted net save_name w) urls with
    | Some url => exists content, urlopen_read net url = Some content /\
                                  stat save_name w' = Some (stored content (clock w))
    | None => cache_dir w' = cache_dir w
    end.
Proof.
  revert w. induction urls as [|url urls IH]; intros w.
  - exists w. cbn. rewrite app_nil_r. repeat split; auto.
  - destruct (try_url_full url w) as (w1 & Hrun & Hcalls & Hto & Hpost).
    cbn [try_urls existsb tried find]. unfold bind at 1. rewrite Hrun.
    destruct (accepted net save_name w url) eqn:Hacc; cbn.
    + exists w1. auto.
    + destruct (IH w1) as (w2 & Hrun2 & Hcalls2 & Hto2 & Hpost2).
      assert (Hsame : forall u, accepted net save_name w1 u = accepted net save_name w u)
        by (intros u; now apply accepted_same_dir).
      rewrite (existsb_same _ _ urls Hsame) in Hrun2.
      rewrite (find_same _ _ urls Hsame) in Hpost2.
      rewrite (tried_same _ _ urls Hsame) in Hcalls2.
      exists w2. split; [exact Hrun2|]. split.
      * rewrite Hcalls2, Hcalls, <- app_assoc. reflexivity.
      * split; [now apply (touches_only_trans _ w w1 w2)|].
        destruct Hto as (Hclock & _).
        destruct (find _ urls); [now rewrite <- Hclock | congruence].
Qed.

End DownloadFull.


Lemma tried_length (ok : string -> bool) (urls : list string) :
  (List.length (tried ok urls) <= List.length urls)%nat.
Proof.
  induction urls as [|u urls IH]; cbn; [lia|].
  destruct (ok u); cbn; lia.
Qed.

Lemma urls_to_try_length (cover_id isbn : Py.pyval) :
  (List.length (urls_to_try cover_id isbn) <= 3)%nat.
Proof.
  unfold urls_to_try.
  destruct (Py.truthy cover_id), (is_isbn_tag cover_id), (Py.truthy isbn);
    cbn; lia.
Qed.

(** ** The look-up, in full *)

(** What the look-up answers and what it leaves in the cache, case by
    case. *)
Lemma cached_cover_valid_cases (name : string) (w : world) :
  exists b w',
    cached_cover_valid name w = (Ok b, w') /\
    net_calls (trace w') = net_calls (trace w) /\
    clock w' = clock w /\
    match stat name w with
    | None => b = false /\ cache_dir w' = cache_dir w
    | Some f =>
        match f_hazard f with
        | Vanishing =>
            b = false /\ cache_dir w' = Some (Dir.delete name (entries w))
        | _ =>
            if 1000 <? f_size f then b = true /\ cache_dir w' = cache_dir w
            else b = false /\
                 cache_dir w' =
                   match f_kind f, f_hazard f with
                   | Regular, Sound => Some (Dir.delete name (entries w))
                   | _, _ => cache_dir w
                   end
        end
    end.
Proof.
  destruct w as [[d|] c t];
    unfold cached_cover_valid, Os.path_exists, Os.path_getsize, Os.remove,
      Os.stat_now;
    unfold_monad; unfold stat, entries; cbn -[Z.ltb].
  2:{ do 2 eexists. split; [reflexivity|]. cbn.
      rewrite net_calls_app, app_nil_r. auto. }
  destruct (Dir.lookup name d) as [f|] eqn:Hl; cbn -[Z.ltb].
  2:{ do 2 eexists. split; [reflexivity|]. cbn.
      rewrite net_calls_app, app_nil_r. auto. }
  rewrite Hl.
  destruct (f_hazard f) eqn:Hh; cbn -[Z.ltb];
    try (destruct (1000 <? f_size f) eqn:Hs; cbn -[Z.ltb]; rewrite ?Hl, ?Hh;
         cbn -[Z.ltb]);
    try (destruct (f_kind f); cbn -[Z.ltb]);
    do 2 eexists; (split; [reflexivity|]); cbn;
    rewrite !net_calls_app, ?app_nil_r; auto.
Qed.

Lemma valid_cover_delete_other (p name : string) (w w' : world) :
  valid_cover p w -> p <> name ->
  cache_dir w' = Some (Dir.delete name (entries w)) ->
  valid_cover p w'.
Proof.
  intros (f & Hf & H) Hne Hd. exists f. split; [|exact H].
  unfold stat, entries in *. rewrite Hd. now rewrite lookup_delete_other.
Qed.

(** The look-up touches its own entry only, and no valid cover is lost. *)
Lemma cached_cover_valid_frame (name : string) (w : world) :
  exists b w',
    cached_cover_valid name w = (Ok b, w') /\
    net_calls (trace w') = net_calls (trace w) /\
    touches_only name w w' /\
    (forall p, valid_cover p w -> valid_cover p w').
Proof.
  destruct (cached_cover_valid_cases name w) as (b & w' & Hrun & Hcalls & Hclock & Hcase).
  exists b, w'. split; [exact Hrun|]. split; [exact Hcalls|].
  assert (Hdel : cache_dir w' = Some (Dir.delete name (entries w)) ->
                 stat name w <> None ->
                 touches_only name w w' /\
                 (forall p, p <> name -> valid_cover p w -> valid_cover p w')).
  { intros Hd Hsome. split.
    - split; [exact Hclock|]. split.
      + intros Hnone. exfalso. apply Hsome. unfold stat, entries.
        now rewrite Hnone.
      + intros n Hn. unfold stat at 1, entries at 1. rewrite Hd.
        now apply lookup_delete_other.
    - intros p Hp Hv. now apply (valid_cover_delete_other p name w). }
  assert (Hkeep : cache_dir w' = cache_dir w ->
                  touches_only name w w' /\
                  (forall p, valid_cover p w -> valid_cover p w')).
  { intros Hd. split; [now apply touches_only_same_dir|].
    intros p. now apply valid_cover_same_dir. }
  destruct (stat name w) as [f|] eqn:Hf; [|now apply Hkeep].
  assert (Hvalid_here :
            forall p, valid_cover p w -> p = name ->
                      f_hazard f <> Vanishing /\ (1000 <? f_size f) = true).
  { intros p (g & Hg & Hsz & Hhz) ->. rewrite Hf in Hg. injection Hg as <-.
    split; [exact Hhz | now apply Z.ltb_lt]. }
  assert (Hsplit : forall p, p = name \/ p <> name).
  { intros p. destruct (string_dec p name); auto. }
  destruct (f_hazard f) eqn:Hh.
  - destruct (1000 <? f_size f) eqn:Hs; [now apply Hkeep|].
    destruct Hcase as [_ Hd]. destruct (f_kind f); [|now apply Hkeep].
    destruct (Hdel Hd) as [Hto Hv]; [discriminate|].
    split; [exact Hto|]. intros p Hp.
    destruct (Hsplit p) as [->|Hne]; [|now apply Hv].
    destruct (Hvalid_here _ Hp eq_refl) as [_ Hbig]. congruence.
  - destruct Hcase as [_ Hd].
    destruct (Hdel Hd) as [Hto Hv]; [discriminate|].
    split; [exact Hto|]. intros p Hp.
    destruct (Hsplit p) as [->|Hne]; [|now apply Hv].
    destruct (Hvalid_here _ Hp eq_refl) as [Hnv _]. congruence.
  - destruct (1000 <? f_size f) eqn:Hs; [now apply Hkeep|].
    destruct Hcase as [_ Hd]. destruct (f_kind f); now apply Hkeep.
Qed.

(** ** The resolver, in full *)

Lemma valid_cover_touches_only (p name : string) (w w' : world) :
  touches_only name w w' -> p <> name -> valid_cover p w -> valid_cover p w'.
Proof.
  intros (_ & _ & Hframe) Hne (f & Hf & H). exists f.
  now rewrite (Hframe p Hne).
Qed.


Section ResolverFull.

Variable net : remote.

(** The download keeps every valid cover valid. *)
Lemma try_urls_keeps_valid (name : string) (urls : list string)
    (w w' : world) (done : bool) :
  try_urls net name urls w = (Ok done, w') ->
  forall p, valid_cover p w -> valid_cover p w'.
Proof.
  intros Hrun p Hp.
  destruct (try_urls_spec net name urls w) as (w1 & Hrun1 & _ & Hpost).
  destruct (try_urls_full net name urls w) as (w2 & Hrun2 & _ & Hto & _).
  rewrite Hrun in Hrun1, Hrun2.
  injection Hrun1 as Hd <-. injection Hrun2 as _ <-.
  destruct (string_dec p name) as [->|Hne];
    [|now apply (valid_cover_touches_only p name w)].
  destruct (existsb _ urls); [exact Hpost|].
  now apply (valid_cover_same_dir name w).
Qed.

Lemma get_cover_image_full (cover_id isbn : Py.pyval) (w : world) :
  exists icon w' new,
    get_cover_image net cover_id isbn w = (Ok icon, w') /\
    net_calls (trace w') = net_calls (trace w) ++ new /\
    (List.length new <= 3)%nat /\
    touches_only (cached_cover_name cover_id isbn) w w' /\
    (icon = DefaultBookIcon \/ icon = CacheFile (cached_cover_name cover_id isbn)) /\
    icon_exists w' icon /\
    (forall p, valid_cover p w -> valid_cover p w').
Proof.
  unfold get_cover_image.
  destruct (negb (Py.truthy cover_id) && negb (Py.truthy isbn)).
  { exists DefaultBookIcon, w, []. rewrite app_nil_r. cbn.
    repeat split; auto. }
  cbv zeta. set (name := cached_cover_name cover_id isbn).
  destruct (cached_cover_valid_frame name w) as (b & w1 & Hrun & Hcalls & Hto & Hkeep).
  destruct (cached_cover_valid_spec name w) as (b' & w1' & Hrun' & _ & Hhit).
  rewrite Hrun in Hrun'. injection Hrun' as <- <-.
  unfold bind at 1. rewrite Hrun. destruct b.
  - destruct (Hhit eq_refl) as [Hv Hsame].
    exists (CacheFile name), w1, []. rewrite app_nil_r. cbn.
    repeat split; auto; apply Hto.
  - unfold download_cover, bind.
    destruct (try_urls_spec net name (urls_to_try cover_id isbn) w1)
      as (w2 & Hrun2 & Hcalls2 & Hpost).
    destruct (try_urls_full net name (urls_to_try cover_id isbn) w1)
      as (w2' & Hrun2' & _ & Hto2 & _).
    rewrite Hrun2 in Hrun2'. injection Hrun2' as <-.
    pose proof (try_urls_keeps_valid _ _ _ _ _ Hrun2) as Hkeep2.
    rewrite Hrun2.
    exists (if existsb (accepted net name w1) (urls_to_try cover_id isbn)
            then CacheFile name else DefaultBookIcon), w2,
           (tried (accepted net name w1) (urls_to_try cover_id isbn)).
    split; [now destruct (existsb _ _)|].
    split; [now rewrite Hcalls2, Hcalls|].
    split.
    { eapply Nat.le_trans; [apply tried_length | apply urls_to_try_length]. }
    split; [now apply (touches_only_trans _ w w1 w2)|].
    split; [destruct (existsb _ _); auto|].
    split; [destruct (existsb _ _); cbn; auto|].
    intros p Hp. auto.
Qed.

(** A valid cover under the record's key is returned at once. *)
Lemma get_cover_image_hit (cover_id isbn : Py.pyval) (w : world) :
  (Py.truthy cover_id || Py.truthy isbn) = true ->
  valid_cover (cached_cover_name cover_id isbn) w ->
  exists w',
    get_cover_image net cover_id isbn w =
      (Ok (CacheFile (cached_cover_name cover_id isbn)), w') /\
    cache_dir w' = cache_dir w /\
    net_calls (trace w') = net_calls (trace w).
Proof.
  intros Ht Hvalid.
  destruct (cached_cover_valid_hit _ _ Hvalid) as (w2 & Hrun & Hdir & Hcalls).
  exists w2. split; [|auto].
  unfold get_cover_image.
  destruct (Py.truthy cover_id), (Py.truthy isbn); try discriminate;
    cbn [negb andb]; cbv zeta; unfold bind; now rewrite Hrun.
Qed.

(** With no usable file under the record's key, the resolver goes through
    the look-up to the download, which then decides. *)
Lemma get_cover_image_miss (cover_id isbn : Py.pyval) (w w1 : world) :
  (Py.truthy cover_id || Py.truthy isbn) = true ->
  cached_cover_valid (cached_cover_name cover_id isbn) w = (Ok false, w1) ->
  exists w2,
    get_cover_image net cover_id isbn w =
      (Ok (if existsb (accepted net (cached_cover_name cover_id isbn) w1)
                 (urls_to_try cover_id isbn)
           then CacheFile (cached_cover_name cover_id isbn)
           else DefaultBookIcon), w2) /\
    try_urls net (cached_cover_name cover_id isbn) (urls_to_try cover_id isbn) w1 =
      (Ok (existsb (accepted net (cached_cover_name cover_id isbn) w1)
             (urls_to_try cover_id isbn)), w2).
Proof.
  intros Ht Hrun.
  destruct (try_urls_spec net (cached_cover_name cover_id isbn)
              (urls_to_try cover_id isbn) w1) as (w2 & Hrun2 & _).
  exists w2. split; [|exact Hrun2].
  unfold get_cover_image.
  destruct (Py.truthy cover_id), (Py.truthy isbn); try discriminate;
    cbn [negb andb]; cbv zeta; unfold bind at 1; rewrite Hrun;
    unfold download_cover, bind; rewrite Hrun2;
    now destruct (existsb _ _).
Qed.

End ResolverFull.

Lemma find_none_existsb {A} (p q : A -> bool) (l : list A) :
  (forall x, q x = true -> p x = true) ->
  find p l = None -> existsb q l = false.
Proof.
  intros Himp. induction l as [|x l IH]; cbn; [reflexivity|].
  destruct (p x) eqn:Hp; [discriminate|].
  destruct (q x) eqn:Hq; [rewrite (Himp x Hq) in Hp; discriminate|].
  exact IH.
Qed.

Lemma accepted_yields (net : remote) (name : string) (w : world) (url : string) :
  accepted net name w url = true -> yields_cover net url = true.
Proof. unfold accepted. now intros [H _]%andb_true_iff. Qed.

Section AfterMiss.

Variable net : remote.
Variables cover_id isbn : Py.pyval.

Local Abbreviation name := (cached_cover_name cover_id isbn).
Local Abbreviation urls := (urls_to_try cover_id isbn).

(** After a look-up that found nothing usable, the slot being free: no
    listed URL yields a cover. *)
Lemma miss_then_nothing (w w1 : world) :
  (Py.truthy cover_id || Py.truthy isbn) = true ->
  cached_cover_valid name w = (Ok false, w1) ->
  net_calls (trace w1) = net_calls (trace w) ->
  first_cover net urls = None ->
  exists w2,
    get_cover_image net cover_id isbn w = (Ok DefaultBookIcon, w2) /\
    cache_dir w2 = cache_dir w1 /\
    net_calls (trace w2) = net_calls (trace w) ++ urls.
Proof.
  intros Ht Hrun Hcalls Hnone.
  destruct (get_cover_image_miss net cover_id isbn w w1 Ht Hrun) as (w2 & Hget & Htry).
  assert (Hex : existsb (accepted net name w1) urls = false)
    by (apply (find_none_existsb (yields_cover net)); [apply accepted_yields | exact Hnone]).
  rewrite Hex in Hget, Htry.
  destruct (try_urls_spec net name urls w1) as (w2' & Hrun2 & Hcalls2 & Hpost).
  rewrite Htry in Hrun2. injection Hrun2 as _ <-.
  rewrite Hex in Hpost. rewrite (tried_all _ _ Hex) in Hcalls2.
  exists w2. split; [exact Hget|]. split; [exact Hpost|].
  now rewrite Hcalls2, Hcalls.
Qed.


End AfterMiss.

(** ** Properties of the download and of the resolver *)

Section ResolverExtras.

Variable net : remote.

(** X1.  One call of [download_cover] makes at most three requests: the two
    sizes of a cover identifier and the ISBN URL, or the ISBN URL and the
    URL of an ISBN tag. *)
Theorem download_cover_at_most_three_requests (cover_id isbn : Py.pyval)
    (save_name : string) (w : world) :
  (List.length (requests_of (download_cover net cover_id save_name isbn) w) <= 3)%nat.
Proof.
  rewrite download_cover_requests.
  eapply Nat.le_trans; [apply tried_length | apply urls_to_try_length].
Qed.

(** X2.  [download_cover] never raises.  It returns [True] exactly when one
    of the listed URLs is accepted; the file then holds the body of the
    first accepted URL, which is longer than 1000 bytes.  Otherwise the
    cache directory is as it was.  No other entry of the cache is touched
    in either case. *)
Theorem download_cover_outcome (cover_id isbn : Py.pyval) (save_name : string)
    (w : world) :
  let urls := urls_to_try cover_id isbn in
  exists w',
    download_cover net cover_id save_name isbn w =
      (Ok (existsb (accepted net save_name w) urls), w') /\
    touches_only save_name w w' /\
    match find (accepted net save_name w) urls with
    | Some url =>
        exists content,
          urlopen_read net url = Some content /\
          1000 < Z.of_nat (List.length content) /\
          stat save_name w' = Some (stored content (clock w))
    | None => cache_dir w' = cache_dir w
    end.
Proof.
  cbv zeta. unfold download_cover.
  destruct (try_urls_full net save_name (urls_to_try cover_id isbn) w)
    as (w' & Hrun & _ & Hto & Hpost).
  exists w'. split; [exact Hrun|]. split; [exact Hto|].
  destruct (find _ _) as [url|] eqn:Hfind; [|exact Hpost].
  destruct Hpost as (content & Hread & Hstored).
  exists content. split; [exact Hread|]. split; [|exact Hstored].
  apply find_some in Hfind. destruct Hfind as [_ Hacc].
  apply accepted_yields in Hacc. unfold yields_cover in Hacc.
  rewrite Hread in Hacc. now apply Z.ltb_lt.
Qed.

(** X3.  [get_cover_image] never raises.  It returns the default book icon
    or the cache path of the record's key, and a cache path only when the
    file is there and larger than 1000 bytes: never the path of a file that
    does not exist.  It makes at most three requests. *)
Theorem resolver_returns_existing_icon (cover_id isbn : Py.pyval) (w : world) :
  exists icon w',
    get_cover_image net cover_id isbn w = (Ok icon, w') /\
    (icon = DefaultBookIcon \/
     icon = CacheFile (cached_cover_name cover_id isbn)) /\
    icon_exists w' icon /\
    (List.length (requests_of (get_cover_image net cover_id isbn) w) <= 3)%nat.
Proof.
  destruct (get_cover_image_full net cover_id isbn w)
    as (icon & w' & new & Hrun & Hcalls & Hlen & _ & Hicon & Hex & _).
  exists icon, w'. repeat split; auto.
  rewrite (requests_of_logged _ w w' new); [exact Hlen | now rewrite Hrun | exact Hcalls].
Qed.


(** X5.  The fast path: when a valid cover lies under the record's key, it
    is returned without any request, whatever the network would answer, and
    the cache is left as it is. *)
Theorem resolver_fast_path (cover_id isbn : Py.pyval) (w : world) :
  (Py.truthy cover_id || Py.truthy isbn) = true ->
  valid_cover (cached_cover_name cover_id isbn) w ->
  let r := get_cover_image net cover_id isbn w in
  fst r = Ok (CacheFile (cached_cover_name cover_id isbn)) /\
  requests_of (get_cover_image net cover_id isbn) w = [] /\
  cache_dir (snd r) = cache_dir w.
Proof.
  intros Ht Hv. cbv zeta.
  destruct (get_cover_image_hit net cover_id isbn w Ht Hv) as (w' & Hrun & Hdir & Hcalls).
  rewrite (requests_of_logged _ w w' []);
    [| now rewrite Hrun | now rewrite app_nil_r].
  rewrite Hrun. auto.
Qed.

(** X6.  Total failure: with nothing cached under the record's key and no
    listed URL answering with more than 1000 bytes, every listed URL is
    requested, in order and as often as it is listed, the default book icon
    is returned, and the cache directory is as it was. *)
Theorem resolver_cold_unreachable (cover_id isbn : Py.pyval) (w : world) :
  (Py.truthy cover_id || Py.truthy isbn) = true ->
  stat (cached_cover_name cover_id isbn) w = None ->
  first_cover net (urls_to_try cover_id isbn) = None ->
  let r := get_cover_image net cover_id isbn w in
  fst r = Ok DefaultBookIcon /\
  requests_of (get_cover_image net cover_id isbn) w = urls_to_try cover_id isbn /\
  cache_dir (snd r) = cache_dir w.
Proof.
  intros Ht Hfree Hnone. cbv zeta.
  destruct (cached_cover_valid_cases (cached_cover_name cover_id isbn) w)
    as (b & w1 & Hrun & Hcalls & _ & Hcase).
  rewrite Hfree in Hcase. destruct Hcase as [-> Hdir].
  destruct (miss_then_nothing net cover_id isbn w w1 Ht Hrun Hcalls Hnone)
    as (w2 & Hget & Hdir2 & Hcalls2).
  rewrite (requests_of_logged _ w w2 (urls_to_try cover_id isbn));
    [| now rewrite Hget | exact Hcalls2].
  rewrite Hget. cbn. repeat split. congruence.
Qed.


(** X8.  Self-healing without a network: an undersized regular file under
    the record's key, which the system lets the plugin remove, is gone
    after the call even when no listed URL yields a cover; the default book
    icon is returned. *)
Theorem resolver_purges_stub (cover_id isbn : Py.pyval) (w : world) (f : file) :
  (Py.truthy cover_id || Py.truthy isbn) = true ->
  stat (cached_cover_name cover_id isbn) w = Some f ->
  f_kind f = Regular -> f_hazard f = Sound -> f_size f <= 1000 ->
  first_cover net (urls_to_try cover_id isbn) = None ->
  let r := get_cover_image net cover_id isbn w in
  fst r = Ok DefaultBookIcon /\
  stat (cached_cover_name cover_id isbn) (snd r) = None /\
  requests_of (get_cover_image net cover_id isbn) w = urls_to_try cover_id isbn.
Proof.
  intros Ht Hf Hk Hh Hsz Hnone. cbv zeta.
  destruct (cached_cover_valid_cases (cached_cover_name cover_id isbn) w)
    as (b & w1 & Hrun & Hcalls & _ & Hcase).
  rewrite Hf, Hh, Hk in Hcase.
  replace (1000 <? f_size f) with false in Hcase
    by (symmetry; now apply Z.ltb_ge).
  destruct Hcase as [-> Hdir].
  destruct (miss_then_nothing net cover_id isbn w w1 Ht Hrun Hcalls Hnone)
    as (w2 & Hget & Hdir2 & Hcalls2).
  rewrite (requests_of_logged _ w w2 _ ltac:(now rewrite Hget) Hcalls2).
  rewrite Hget. cbn. repeat split.
  unfold stat, entries. rewrite Hdir2, Hdir. apply lookup_delete.
Qed.

End ResolverExtras.

Lemma resolver_fast_path_witness :
  let r := get_cover_image Sample.offline (Py.PInt 12345) Sample.the_isbn
             Sample.two_covers in
  fst r = Ok (CacheFile "12345.jpg") /\
  requests_of (get_cover_image Sample.offline (Py.PInt 12345) Sample.the_isbn)
    Sample.two_covers = [] /\
  cache_dir (snd r) = cache_dir Sample.two_covers.
Proof.
  apply (resolver_fast_path Sample.offline (Py.PInt 12345) Sample.the_isbn
           Sample.two_covers eq_refl).
  exists (Sample.aged 20000 2 Sound).
  split; [reflexivity|]. split; [reflexivity | discriminate].
Defined.

Lemma resolver_cold_unreachable_witness :
  let r := get_cover_image Sample.offline Sample.isbn_tagged Sample.the_isbn
             Sample.two_covers in
  fst r = Ok DefaultBookIcon /\
  requests_of (get_cover_image Sample.offline Sample.isbn_tagged Sample.the_isbn)
    Sample.two_covers =
    ["https://covers.openlibrary.org/b/isbn/9780131103627-M.jpg";
     "https://covers.openlibrary.org/b/isbn/9780131103627-M.jpg"] /\
  cache_dir (snd r) = cache_dir Sample.two_covers.
Proof.
  exact (resolver_cold_unreachable Sample.offline Sample.isbn_tagged
           Sample.the_isbn Sample.two_covers eq_refl eq_refl eq_refl).
Defined.


Lemma resolver_purges_stub_witness :
  let r := get_cover_image Sample.offline (Py.PInt 12345) Sample.the_isbn
             Sample.stub_12345 in
  fst r = Ok DefaultBookIcon /\
  stat "12345.jpg" (snd r) = None /\
  requests_of (get_cover_image Sample.offline (Py.PInt 12345) Sample.the_isbn)
    Sample.stub_12345 =
    ["https://covers.openlibrary.org/b/id/12345-M.jpg";
     "https://covers.openlibrary.org/b/id/12345-L.jpg";
     "https://covers.openlibrary.org/b/isbn/9780131103627-M.jpg"].
Proof.
  refine (resolver_purges_stub Sample.offline (Py.PInt 12345) Sample.the_isbn
            Sample.stub_12345 (Sample.aged 500 1 Sound)
            eq_refl eq_refl eq_refl eq_refl _ eq_refl).
  cbn. lia.
Defined.

(** ** The search *)

Lemma is_empty_strip (term : string) :
  Py.is_empty (Py.strip term) = Py.blank term.
Proof.
  unfold Py.is_empty.
  destruct (Py.strip term =? "")%string eqn:E.
  - symmetry. apply strip_empty_iff. now apply String.eqb_eq.
  - destruct (Py.blank term) eqn:Hb; [|reflexivity].
    apply strip_blank in Hb. rewrite Hb in E. discriminate.
Qed.

(** The books that the search makes of a response. *)
Lemma search_openlibrary_api_run (net : remote) (term : string) (w : world) :
  Py.blank term = false ->
  exists w',
    search_openlibrary_api net term w =
      (Ok match urlopen_read net (api_url (Py.strip term)) with
          | Some body =>
              match json_loads net body with
              | Some data =>
                  firstn 5 (match docs data with
                            | Some ds => map book_of_doc ds
                            | None => []
                            end)
              | None => []
              end
          | None => []
          end, w') /\
    cache_dir w' = cache_dir w /\
    clock w' = clock w /\
    net_calls (trace w') = net_calls (trace w) ++ [api_url (Py.strip term)].
Proof.
  intros Hb. unfold search_openlibrary_api, urlopen.
  rewrite is_empty_strip, Hb. unfold_monad. cbn.
  destruct (urlopen_read net _) as [body|]; cbn.
  - destruct (json_loads net body) as [data|]; cbn;
      eexists; (split; [reflexivity|]); cbn; now rewrite net_calls_app.
  - eexists. split; [reflexivity|]. cbn. now rewrite net_calls_app.
Qed.

Section SearchExtras.

Variable net : remote.

(** X9.  The search never raises, returns at most five books and leaves
    the cache alone.  It makes no request for a blank term and exactly one
    otherwise, for the stripped and quoted term. *)
Theorem search_never_raises_at_most_five (term : string) (w : world) :
  exists books w',
    search_openlibrary_api net term w = (Ok books, w') /\
    (List.length books <= 5)%nat /\
    cache_dir w' = cache_dir w /\
    requests_of (search_openlibrary_api net term) w =
      if Py.blank term then [] else [api_url (Py.strip term)].
Proof.
  destruct (Py.blank term) eqn:Hb.
  - exists [], w. rewrite (search_blank net term w Hb). cbn.
    repeat split; [lia|]. unfold requests_of.
    rewrite (search_blank net term w Hb). apply skipn_all_nil.
  - destruct (search_openlibrary_api_run net term w Hb)
      as (w' & Hrun & Hdir & _ & Hcalls).
    eexists _, w'. split; [exact Hrun|]. split.
    + destruct (urlopen_read net _) as [body|]; [|cbn; lia].
      destruct (json_loads net body) as [data|]; [|cbn; lia].
      apply firstn_le_length.
    + split; [exact Hdir|].
      apply (requests_of_logged _ w w'); [now rewrite Hrun | exact Hcalls].
Qed.

(** X10.  Degrade to empty: when the request fails, when the body is not
    JSON, or when the response has no ['docs'], the search returns the
    empty list. *)
Theorem search_degrades_to_empty (term : string) (w : world) :
  urlopen_read net (api_url (Py.strip term)) = None \/
  (exists body, urlopen_read net (api_url (Py.strip term)) = Some body /\
                (json_loads net body = None \/
                 json_loads net body = Some (mkData None))) ->
  fst (search_openlibrary_api net term w) = Ok [].
Proof.
  intros Hbad. destruct (Py.blank term) eqn:Hb.
  { now rewrite (search_blank net term w Hb). }
  destruct (search_openlibrary_api_run net term w Hb) as (w' & Hrun & _).
  rewrite Hrun. cbn [fst].
  destruct Hbad as [-> | (body & -> & [-> | ->])]; reflexivity.
Qed.

(** X11.  On a response with documents, for a term that is not blank, the
    books are the first five documents, each converted by itself, in the
    order of the response. *)
Theorem search_hits_in_order (term : string) (w : world)
    (body : list Byte.byte) (ds : list doc) :
  Py.blank term = false ->
  urlopen_read net (api_url (Py.strip term)) = Some body ->
  json_loads net body = Some (mkData (Some ds)) ->
  fst (search_openlibrary_api net term w) = Ok (map book_of_doc (firstn 5 ds)).
Proof.
  intros Hb Hread Hjson.
  destruct (search_openlibrary_api_run net term w Hb) as (w' & Hrun & _).
  rewrite Hrun, Hread, Hjson. cbn [fst docs]. now rewrite firstn_map.
Qed.

End SearchExtras.

Lemma search_degrades_to_empty_witness :
  fst (search_openlibrary_api Sample.offline " dune " Sample.two_covers) = Ok [] /\
  fst (search_openlibrary_api Demo.garbled " dune " Sample.two_covers) = Ok [].
Proof.
  split.
  - apply (search_degrades_to_empty Sample.offline). now left.
  - apply (search_degrades_to_empty Demo.garbled). right.
    exists []. split; [reflexivity | now left].
Defined.

Lemma search_hits_in_order_witness :
  fst (search_openlibrary_api Demo.catalogue " dune " Sample.two_covers) =
  Ok (map book_of_doc (firstn 5 Demo.dune_docs)).
Proof.
  exact (search_hits_in_order Demo.catalogue " dune " Sample.two_covers []
           Demo.dune_docs eq_refl eq_refl eq_refl).
Defined.

(** ** From a document to a record *)

Lemma replace_isbn_tag (i : string) :
  Py.replace "isbn_" "" ("isbn_" ++ i) = Py.replace "isbn_" "" i.
Proof.
  unfold Py.replace. cbn -[Py.replace_from].
  cbn [Py.replace_from]. cbn [String.prefix].
  repeat (destruct (ascii_dec _ _) as [_|Hne]; [|now elim Hne]).
  now destruct i.
Qed.

Lemma isbn_only_hit_fields (d : doc) (i : string) (rest : list string) :
  d_cover_i d = None \/ d_cover_i d = Some 0 ->
  d_cover_edition_key d = None \/ d_cover_edition_key d = Some "" ->
  d_isbn d = Some (i :: rest) ->
  cover_id (book_of_doc d) = Py.PStr ("isbn_" ++ i) /\
  isbn (book_of_doc d) = Py.PStr i.
Proof.
  unfold book_of_doc, Py.or_. cbn [cover_id isbn].
  intros Hc He ->. destruct Hc as [-> | ->], He as [-> | ->]; now split.
Qed.

(** X12.  The cover hint of a hit is its [cover_i] when that is a number
    other than zero, else its [cover_edition_key] when that is a non-empty
    string, else the tag [isbn_] followed by its first ISBN; the [isbn]
    field is the first ISBN in any case. *)
Theorem hit_cover_hint_precedence (d : doc) :
  (forall n, d_cover_i d = Some n -> n <> 0 ->
             cover_id (book_of_doc d) = Py.PInt n) /\
  (forall s, d_cover_i d = None \/ d_cover_i d = Some 0 ->
             d_cover_edition_key d = Some s -> s <> "" ->
             cover_id (book_of_doc d) = Py.PStr s) /\
  (forall i rest,
     d_cover_i d = None \/ d_cover_i d = Some 0 ->
     d_cover_edition_key d = None \/ d_cover_edition_key d = Some "" ->
     d_isbn d = Some (i :: rest) ->
     cover_id (book_of_doc d) = Py.PStr ("isbn_" ++ i)) /\
  (forall i rest, d_isbn d = Some (i :: rest) ->
                  isbn (book_of_doc d) = Py.PStr i).
Proof.
  repeat split.
  - intros n Hc Hn. apply Z.eqb_neq in Hn.
    unfold book_of_doc, Py.or_. rewrite Hc.
    unfold Py.truthy. cbn [cover_id of_int].
    destruct (d_isbn d) as [[|]|];
      repeat (progress (cbn [negb]; rewrite ?Hn)); reflexivity.
  - intros s Hc He Hs. apply String.eqb_neq in Hs.
    unfold book_of_doc, Py.or_. rewrite He.
    unfold Py.truthy.
    destruct Hc as [-> | ->]; cbn [cover_id of_int of_str Z.eqb negb];
      destruct (d_isbn d) as [[|]|];
      repeat (progress (cbn [negb]; rewrite ?Hs)); reflexivity.
  - intros i rest Hc He Hi. apply (isbn_only_hit_fields d i rest Hc He Hi).
  - intros i rest Hi. unfold book_of_doc. cbn [isbn]. now rewrite Hi.
Qed.

Lemma hit_cover_hint_precedence_witness :
  cover_id (book_of_doc (Demo.hit "Dune" (Some 11))) = Py.PInt 11 /\
  cover_id (book_of_doc Sample.isbn_only_doc) = Py.PStr "isbn_9780131103627" /\
  isbn (book_of_doc Sample.isbn_only_doc) = Py.PStr "9780131103627".
Proof.
  split; [|split].
  - apply (proj1 (hit_cover_hint_precedence (Demo.hit "Dune" (Some 11))));
      [reflexivity | discriminate].
  - apply (proj1 (proj2 (proj2 (hit_cover_hint_precedence Sample.isbn_only_doc)))
             "9780131103627" ["0131103628"]); auto.
  - exact (proj2 (proj2 (proj2 (hit_cover_hint_precedence Sample.isbn_only_doc)))
             "9780131103627" ["0131103628"] eq_refl).
Defined.

(** X13.  A hit that has ISBNs but neither [cover_i] nor
    [cover_edition_key] is cached under [isbn_<first ISBN>.jpg], and its
    URL list is the URL of the first ISBN, twice: once for the [isbn] field
    and once for the tag. *)
Theorem isbn_only_hit_lists_isbn_url_twice (d : doc) (i : string)
    (rest : list string) :
  d_cover_i d = None \/ d_cover_i d = Some 0 ->
  d_cover_edition_key d = None \/ d_cover_edition_key d = Some "" ->
  d_isbn d = Some (i :: rest) ->
  i <> "" ->
  Py.replace "isbn_" "" i = i ->
  let book := book_of_doc d in
  urls_to_try (cover_id book) (isbn book) = [isbn_url i; isbn_url i] /\
  cached_cover_name (cover_id book) (isbn book) =
    (Py.replace "/" "_" ("isbn_" ++ i) ++ ".jpg")%string.
Proof.
  intros Hc He Hi Hne Hplain. cbv zeta.
  destruct (isbn_only_hit_fields d i rest Hc He Hi) as [-> ->].
  apply String.eqb_neq in Hne.
  unfold urls_to_try, cached_cover_name, cache_name, is_isbn_tag, Py.or_,
    Py.startswith.
  cbn [Py.truthy Py.str]. rewrite Hne.
  assert (Htag : String.prefix "isbn_" ("isbn_" ++ i) = true).
  { cbn [String.prefix append].
    repeat (destruct (ascii_dec _ _) as [_|Hx]; [|now elim Hx]).
    now destruct i. }
  rewrite Htag. cbn [negb andb app]. rewrite replace_isbn_tag, Hplain.
  split; reflexivity.
Qed.

Lemma isbn_only_hit_lists_isbn_url_twice_witness :
  let book := book_of_doc Sample.isbn_only_doc in
  urls_to_try (cover_id book) (isbn book) =
    [isbn_url "9780131103627"; isbn_url "9780131103627"] /\
  cached_cover_name (cover_id book) (isbn book) = "isbn_9780131103627.jpg".
Proof.
  refine (isbn_only_hit_lists_isbn_url_twice Sample.isbn_only_doc
            "9780131103627" ["0131103628"] _ _ eq_refl _ eq_refl);
    [now left | now left | discriminate].
Defined.

(** ** The query, in full *)

Lemma icon_exists_kept (w w' : world) (icon : path) :
  (forall p, valid_cover p w -> valid_cover p w') ->
  icon_exists w icon -> icon_exists w' icon.
Proof. intros Hkeep. destruct icon; cbn; auto. Qed.

Section QueryFull.

Variable net : remote.

Lemma process_book_data_full (book_data : book_info) (w : world) :
  exists icon w' new,
    process_book_data net book_data w = (Ok (item_of book_data icon), w') /\
    net_calls (trace w') = net_calls (trace w) ++ new /\
    (List.length new <= 3)%nat /\
    icon_exists w' icon /\
    (forall p, valid_cover p w -> valid_cover p w').
Proof.
  destruct (get_cover_image_full net (cover_id book_data) (isbn book_data) w)
    as (icon & w' & new & Hrun & Hcalls & Hlen & _ & _ & Hex & Hkeep).
  exists icon, w', new. unfold process_book_data, bind. rewrite Hrun.
  repeat split; auto.
Qed.

(** The loop keeps every record, in order, and every icon it hands out
    still exists when it ends. *)
Lemma process_books_full (api_results : list book_info)
    (results : list result_item) (w : world) :
  exists icons w' new,
    process_books net api_results results w =
      (Ok (results ++ items_of api_results icons), w') /\
    List.length icons = List.length api_results /\
    net_calls (trace w') = net_calls (trace w) ++ new /\
    (List.length new <= 3 * List.length api_results)%nat /\
    Forall (icon_exists w') icons /\
    (forall p, valid_cover p w -> valid_cover p w').
Proof.
  revert results w. induction api_results as [|b rest IH]; intros results w.
  - exists [], w, []. unfold items_of. cbn. rewrite !app_nil_r. repeat split; auto.
  - destruct (process_book_data_full b w)
      as (icon & w1 & new1 & Hrun & Hcalls & Hlen & Hex & Hkeep).
    destruct (IH (results ++ [item_of b icon]) w1)
      as (icons & w2 & new2 & Hrun2 & Hlen_i & Hcalls2 & Hlen2 & Hall & Hkeep2).
    exists (icon :: icons), w2, (new1 ++ new2).
    cbn [process_books]. unfold bind at 1. unfold try_except, bind at 1.
    rewrite Hrun. unfold ret at 1. rewrite Hrun2.
    split; [unfold items_of; cbn; now rewrite <- app_assoc|].
    split; [cbn; now rewrite Hlen_i|].
    split; [now rewrite Hcalls2, Hcalls, app_assoc|].
    split; [rewrite length_app; cbn [List.length]; lia|].
    split; [|auto].
    constructor; [|exact Hall]. now apply (icon_exists_kept w1).
Qed.

Lemma search_openlibrary_api_full (term : string) (w : world) :
  exists books w' new,
    search_openlibrary_api net term w = (Ok books, w') /\
    (List.length books <= 5)%nat /\
    cache_dir w' = cache_dir w /\
    net_calls (trace w') = net_calls (trace w) ++ new /\
    (List.length new <= 1)%nat.
Proof.
  destruct (Py.blank term) eqn:Hb.
  - exists [], w, []. rewrite (search_blank net term w Hb), app_nil_r. cbn.
    repeat split; lia.
  - destruct (search_openlibrary_api_run net term w Hb)
      as (w' & Hrun & Hdir & _ & Hcalls).
    eexists _, w', _. split; [exact Hrun|]. split.
    + destruct (urlopen_read net _) as [body|]; [|cbn; lia].
      destruct (json_loads net body) as [data|]; [|cbn; lia].
      apply firstn_le_length.
    + split; [exact Hdir|]. split; [exact Hcalls | cbn; lia].
Qed.

Lemma items_of_length (books : list book_info) (icons : list path) :
  List.length icons = List.length books ->
  List.length (items_of books icons) = List.length books.
Proof.
  intros H. unfold items_of. rewrite length_map, length_combine. lia.
Qed.

Lemma items_of_icons (w : world) (books : list book_info) (icons : list path) :
  Forall (icon_exists w) icons ->
  Forall (fun item => icon_exists w (IcoPath item)) (items_of books icons).
Proof.
  intros Hall. revert books. induction Hall as [|icon icons Hi _ IH]; intros books.
  - destruct books; constructor.
  - destruct books as [|b books]; [constructor|].
    unfold items_of. cbn. constructor; [exact Hi | apply IH].
Qed.

(** The query as a whole. *)
Lemma query_full (term : string) (w : world) :
  exists items w' new,
    query net term w = (Ok items, w') /\
    (1 <= List.length items <= 5)%nat /\
    net_calls (trace w') = net_calls (trace w) ++ new /\
    (List.length new <= 16)%nat /\
    Forall (fun item => icon_exists w' (IcoPath item)) items.
Proof.
  unfold query. destruct (Py.is_empty term).
  { exists [start_typing], w, []. rewrite app_nil_r. cbn.
    repeat split; try lia. repeat constructor. }
  destruct (search_openlibrary_api_full term w)
    as (books & w1 & new1 & Hrun & Hlen & _ & Hcalls & Hlen1).
  unfold bind at 1. rewrite Hrun. destruct books as [|b rest].
  { exists [no_books_found term], w1, new1. cbn.
    repeat split; try lia; [exact Hcalls | repeat constructor]. }
  destruct (process_books_full (b :: rest) [] w1)
    as (icons & w2 & new2 & Hrun2 & Hlen_i & Hcalls2 & Hlen2 & Hall & _).
  unfold bind. rewrite Hrun2. cbn [app].
  pose proof (items_of_length (b :: rest) icons Hlen_i) as Hlen_items.
  destruct (items_of (b :: rest) icons) as [|item items] eqn:Hitems;
    [cbn in Hlen_items; lia|].
  exists (item :: items), w2, (new1 ++ new2). rewrite <- Hitems.
  split; [reflexivity|].
  split; [rewrite Hitems, Hlen_items; cbn in *; lia|].
  split; [now rewrite Hcalls2, Hcalls, app_assoc|].
  split; [rewrite length_app; cbn in *; lia|].
  now apply items_of_icons.
Qed.

End QueryFull.

Lemma items_of_fields (books : list book_info) (icons : list path) :
  List.length icons = List.length books ->
  map Title (items_of books icons) = map title books /\
  map SubTitle (items_of books icons) =
    map (fun b => subtitle_of (author_name b) (first_publish_year b)) books /\
  map JsonRPCAction (items_of books icons) =
    map (fun b => Some ("open_openlibrary_page", [key b])) books.
Proof.
  revert icons. induction books as [|b books IH]; intros icons Hlen.
  - destruct icons; now cbn.
  - destruct icons as [|icon icons]; [discriminate|].
    injection Hlen as Hlen. destruct (IH icons Hlen) as (Ht & Hs & Ha).
    unfold items_of in *. cbn. now rewrite Ht, Hs, Ha.
Qed.

(** ** Properties of the query *)

Section QueryExtras.

Variable net : remote.

(** X14.  The query never raises and never returns an empty list: it
    returns between one and five items.  It makes at most sixteen requests,
    one for the search and three for each of five covers. *)
Theorem query_one_to_five_items (term : string) (w : world) :
  exists items w',
    query net term w = (Ok items, w') /\
    (1 <= List.length items <= 5)%nat /\
    (List.length (requests_of (query net term) w) <= 16)%nat.
Proof.
  destruct (query_full net term w)
    as (items & w' & new & Hrun & Hlen & Hcalls & Hnew & _).
  exists items, w'. split; [exact Hrun|]. split; [exact Hlen|].
  rewrite (requests_of_logged _ w w' new); [exact Hnew | now rewrite Hrun | exact Hcalls].
Qed.

(** X15.  Every icon of a returned item can be shown: it is one of the two
    icons of the plugin, or a cache file that, when the query returns, is
    there and larger than 1000 bytes.  No item points to a missing file. *)
Theorem query_icons_exist (term : string) (w : world) :
  exists items w',
    query net term w = (Ok items, w') /\
    Forall (fun item => icon_exists w' (IcoPath item)) items.
Proof.
  destruct (query_full net term w)
    as (items & w' & new & Hrun & _ & _ & _ & Hall).
  now exists items, w'.
Qed.

(** X16.  When the search returns hits, the query returns one item per hit
    and in the same order, none dropped, merged or reordered: the item
    carries the hit's title, its author and year as subtitle, and the
    action that opens the hit's key. *)
Theorem query_items_follow_hits (term : string) (w w1 : world)
    (books : list book_info) :
  term <> "" ->
  search_openlibrary_api net term w = (Ok books, w1) ->
  books <> [] ->
  exists items,
    fst (query net term w) = Ok items /\
    map Title items = map title books /\
    map SubTitle items =
      map (fun b => subtitle_of (author_name b) (first_publish_year b)) books /\
    map JsonRPCAction items =
      map (fun b => Some ("open_openlibrary_page", [key b])) books.
Proof.
  intros Hne Hrun Hbooks.
  destruct (process_books_full net books [] w1)
    as (icons & w2 & new & Hrun2 & Hlen & _).
  exists (items_of books icons). split; [|now apply items_of_fields].
  unfold query, Py.is_empty.
  replace (term =? "")%string with false
    by (symmetry; now apply String.eqb_neq).
  unfold bind at 1. rewrite Hrun.
  destruct books as [|b rest]; [congruence|].
  unfold bind. rewrite Hrun2. cbn [app].
  pose proof (items_of_length (b :: rest) icons Hlen) as Hn.
  destruct (items_of (b :: rest) icons); [cbn in Hn; lia | reflexivity].
Qed.

(** X17.  When the search request fails, or its answer is not JSON or has
    no ['docs'], the query returns the single "No books found" item with
    the term as typed, after that one request and without touching the
    cache. *)
Theorem query_without_hits (term : string) (w : world) :
  Py.blank term = false ->
  urlopen_read net (api_url (Py.strip term)) = None \/
  (exists body, urlopen_read net (api_url (Py.strip term)) = Some body /\
                (json_loads net body = None \/
                 json_loads net body = Some (mkData None))) ->
  let r := query net term w in
  fst r = Ok [no_books_found term] /\
  requests_of (query net term) w = [api_url (Py.strip term)] /\
  cache_dir (snd r) = cache_dir w.
Proof.
  intros Hb Hbad. cbv zeta.
  destruct (search_openlibrary_api_run net term w Hb)
    as (w' & Hrun & Hdir & _ & Hcalls).
  assert (Hempty : search_openlibrary_api net term w = (Ok [], w')).
  { rewrite Hrun. destruct Hbad as [-> | (body & -> & [-> | ->])]; reflexivity. }
  assert (Hq : query net term w = (Ok [no_books_found term], w')).
  { unfold query. destruct (Py.is_empty term) eqn:He.
    - unfold Py.is_empty in He. apply String.eqb_eq in He. now subst term.
    - unfold bind. now rewrite Hempty. }
  rewrite (requests_of_logged _ w w' _ ltac:(now rewrite Hq) Hcalls).
  rewrite Hq. auto.
Qed.

(** X18.  What a result item promises, its action keeps: the action of the
    item made for a record names [open_openlibrary_page], and running it
    hands the browser the page of the record's key and nothing else; for a
    record without a key, or with an empty one, the browser is not called.
    The report is never empty. *)
Theorem result_action_opens_book_page (webbrowser_open : string -> option string)
    (book_data : book_info) (w : world) :
  exists item w' action report,
    process_book_data net book_data w = (Ok item, w') /\
    JsonRPCAction item = Some action /\
    run_action webbrowser_open action = Some report /\
    opened report =
      match key book_data with
      | Some k => if (k =? "")%string then []
                  else [("https://openlibrary.org" ++ k)%string]
      | None => []
      end /\
    message report <> "".
Proof.
  destruct (process_book_data_full net book_data w)
    as (icon & w' & new & Hrun & _).
  exists (item_of book_data icon), w', ("open_openlibrary_page", [key book_data]),
    (open_openlibrary_page webbrowser_open (of_str (key book_data))).
  split; [exact Hrun|]. split; [reflexivity|]. split; [reflexivity|].
  unfold open_openlibrary_page.
  destruct (key book_data) as [k|]; cbn; [|split; [reflexivity | discriminate]].
  destruct (k =? "")%string; cbn; [split; [reflexivity | discriminate]|].
  destruct (webbrowser_open _); cbn; split; try reflexivity; discriminate.
Qed.

End QueryExtras.

Lemma query_items_follow_hits_witness :
  exists items,
    fst (query Demo.catalogue "dune" Sample.two_covers) = Ok items /\
    map Title items =
      ["Dune"; "Dune Messiah"; "Children of Dune"; "God Emperor of Dune";
       "Heretics of Dune"] /\
    map SubTitle items =
      map (fun b => subtitle_of (author_name b) (first_publish_year b))
          (map book_of_doc (firstn 5 Demo.dune_docs)) /\
    map JsonRPCAction items =
      map (fun b => Some ("open_openlibrary_page", [key b]))
          (map book_of_doc (firstn 5 Demo.dune_docs)).
Proof.
  refine (query_items_follow_hits Demo.catalogue "dune" Sample.two_covers
            (snd (search_openlibrary_api Demo.catalogue "dune" Sample.two_covers))
            (map book_of_doc (firstn 5 Demo.dune_docs)) _ eq_refl _);
    discriminate.
Defined.

Lemma query_without_hits_witness :
  let r := query Sample.offline "dune" Sample.two_covers in
  fst r = Ok [no_books_found "dune"] /\
  requests_of (query Sample.offline "dune") Sample.two_covers =
    ["https://openlibrary.org/search.json?title=dune&limit=10"] /\
  cache_dir (snd r) = cache_dir Sample.two_covers.
Proof.
  apply (query_without_hits Sample.offline "dune" Sample.two_covers eq_refl).
  now left.
Defined.

(** ** The sweep, in full *)

Lemma lookup_Some_In (name : string) (f : file) (d : directory) :
  Dir.lookup name d = Some f -> In (name, f) d.
Proof.
  induction d as [|[n g] d IH]; cbn; [discriminate|].
  destruct (n =? name)%string eqn:E.
  - apply String.eqb_eq in E. subst n. intros [= ->]. now left.
  - intros H. right. now apply IH.
Qed.

Lemma swept_In (now : Z) (n : string) (f : file) (d : directory) :
  In (n, f) (snd (swept now d)) -> In (n, f) d.
Proof.
  induction d as [|[m g] d IH]; cbn; [tauto|].
  destruct (faults now g).
  - cbn. destruct (f_hazard g); cbn; tauto.
  - destruct (swept now d) as [fin rest]. cbn in *.
    destruct (evicted now g); cbn; tauto.
Qed.

Lemma swept_NoDup (now : Z) (d : directory) :
  NoDup (Dir.names d) -> NoDup (Dir.names (snd (swept now d))).
Proof.
  induction d as [|[m g] d IH]; cbn; [auto|].
  intros Hnd. inversion Hnd as [|? ? Hm Hd]; subst.
  destruct (faults now g).
  - cbn. destruct (f_hazard g); auto.
  - pose proof (swept_In now) as Hin. specialize (IH Hd).
    destruct (swept now d) as [fin rest] eqn:Hs. cbn in *.
    destruct (evicted now g); [exact IH|]. cbn. constructor; [|exact IH].
    intros H. apply Hm. unfold Dir.names in *. apply in_map_iff in H.
    destruct H as ([n f] & <- & H). apply in_map_iff. exists (n, f).
    split; [reflexivity | apply Hin; now rewrite Hs].
Qed.

(** Whatever happens to the sweep, an entry that is neither vanishing nor
    an expired regular file is still listed afterwards. *)
Lemma swept_keeps (now : Z) (n : string) (f : file) (d : directory) :
  In (n, f) d -> f_hazard f <> Vanishing -> evicted now f = false ->
  In (n, f) (snd (swept now d)).
Proof.
  intros Hin Hh He. induction d as [|[m g] d IH]; cbn; [contradiction|].
  destruct Hin as [Heq | Hin].
  - injection Heq as -> ->.
    assert (Hf : faults now f = false).
    { unfold faults. unfold evicted in He.
      destruct (f_hazard f); [apply andb_false_r | congruence | exact He]. }
    rewrite Hf, He. destruct (swept now d). now left.
  - specialize (IH Hin). destruct (faults now g).
    + cbn. destruct (f_hazard g); cbn; auto.
    + destruct (swept now d) as [fin rest]. cbn in *.
      destruct (evicted now g); cbn; auto.
Qed.

Lemma sweep_file_quiet (now : Z) (n : string) (w : world) :
  net_calls (trace (snd (sweep_file now n w))) = net_calls (trace w).
Proof.
  destruct w as [[d|] c t];
    unfold sweep_file, Os.path_isfile, Os.path_getmtime, Os.remove, Os.stat_now;
    unfold_monad; unfold stat, entries; cbn -[Z.ltb age_limit_seconds].
  2:{ now rewrite net_calls_app, app_nil_r. }
  destruct (Dir.lookup n d) as [f|] eqn:Hl; cbn -[Z.ltb age_limit_seconds].
  2:{ now rewrite net_calls_app, app_nil_r. }
  destruct (is_regular f); cbn -[Z.ltb age_limit_seconds].
  2:{ now rewrite net_calls_app, app_nil_r. }
  rewrite Hl.
  destruct (f_hazard f) eqn:Hh; cbn -[Z.ltb age_limit_seconds];
    try destruct (age_limit_seconds <? now - f_mtime f);
    repeat (progress (cbn -[Z.ltb age_limit_seconds]; rewrite ?Hl, ?Hh));
    try destruct (f_kind f); cbn;
    rewrite ?net_calls_app; cbn; now rewrite ?app_nil_r.
Qed.

Lemma for_each_sweep_quiet (now : Z) (names : list string) (w : world) :
  net_calls (trace (snd (for_each names (sweep_file now) w))) =
  net_calls (trace w).
Proof.
  revert w. induction names as [|n names IH]; intros w; [reflexivity|].
  cbn [for_each]. unfold bind.
  pose proof (sweep_file_quiet now n w) as Hq.
  destruct (sweep_file now n w) as [[[]|] w1]; cbn in Hq |- *.
  - now rewrite IH.
  - exact Hq.
Qed.

(** The sweep as a whole, on an existing cache directory. *)
Lemma cleanup_image_cache_full (w : world) (d : directory) :
  cache_dir w = Some d ->
  NoDup (Dir.names d) ->
  exists w',
    cleanup_image_cache w = (Ok tt, w') /\
    cache_dir w' = Some (snd (swept (clock w) d)) /\
    clock w' = clock w /\
    net_calls (trace w') = net_calls (trace w).
Proof.
  intros Hd Hnd. unfold cleanup_image_cache, Os.path_isdir, Os.time, Os.listdir.
  unfold_monad. cbn. rewrite Hd. cbn.
  set (w0 := {| cache_dir := Some d; clock := clock w;
                trace := (trace w ++ [FsIsDir]) ++ [FsListDir] |}).
  destruct (sweep_loop (clock w) d [] w0 eq_refl Hnd) as (w1 & Hrun & Hclock & Hd1).
  pose proof (for_each_sweep_quiet (clock w) (Dir.names d) w0) as Hq.
  rewrite Hrun in *. cbn in Hq.
  rewrite !net_calls_app in Hq. cbn in Hq. rewrite !app_nil_r in Hq.
  destruct (fst (swept (clock w) d)); eexists; (split; [reflexivity|]); auto.
Qed.

Lemma filter_idem {A} (p : A -> bool) (l : list A) :
  filter p (filter p l) = filter p l.
Proof.
  induction l as [|x l IH]; cbn; [reflexivity|].
  destruct (p x) eqn:Hp; cbn; [rewrite Hp; now f_equal | exact IH].
Qed.

(** A cover that a sweep must keep is as valid after it as before. *)
Lemma sweep_keeps_stat (w : world) (d : directory) (n : string) (f : file) :
  cache_dir w = Some d ->
  NoDup (Dir.names d) ->
  In (n, f) d -> f_hazard f <> Vanishing -> evicted (clock w) f = false ->
  stat n (snd (cleanup_image_cache w)) = Some f.
Proof.
  intros Hd Hnd Hin Hh He.
  destruct (cleanup_image_cache_full w d Hd Hnd) as (w' & Hrun & Hd' & _).
  rewrite Hrun. cbn [snd]. unfold stat, entries. rewrite Hd'.
  apply lookup_In; [now apply swept_NoDup | now apply swept_keeps].
Qed.

(** ** Properties of the sweep *)

(** X19.  The sweep only ever removes: it never raises, requests nothing
    from the network, and every entry found in the cache after it was there
    before it, unchanged. *)
Theorem sweep_only_removes (w : world) (d : directory) :
  cache_dir w = Some d ->
  NoDup (Dir.names d) ->
  let r := cleanup_image_cache w in
  fst r = Ok tt /\
  requests_of cleanup_image_cache w = [] /\
  forall n f, stat n (snd r) = Some f -> stat n w = Some f.
Proof.
  intros Hd Hnd. cbv zeta.
  destruct (cleanup_image_cache_full w d Hd Hnd) as (w' & Hrun & Hd' & _ & Hcalls).
  rewrite (requests_of_logged _ w w' []);
    [| now rewrite Hrun | now rewrite app_nil_r].
  rewrite Hrun. cbn [fst snd]. repeat split.
  intros n f. unfold stat, entries. rewrite Hd', Hd. intros Hl.
  apply lookup_In; [exact Hnd|].
  now apply (swept_In (clock w)), lookup_Some_In.
Qed.

(** X20.  Whether or not the sweep fails on some file, it leaves alone
    every sub-directory and every file that is not older than the age
    limit, unless the entry is one that another process is deleting. *)
Theorem sweep_keeps_unexpired (w : world) (d : directory) (n : string) (f : file) :
  cache_dir w = Some d ->
  NoDup (Dir.names d) ->
  In (n, f) d ->
  f_hazard f <> Vanishing ->
  f_kind f = Directory \/ clock w - age_limit_seconds <= f_mtime f ->
  stat n (snd (cleanup_image_cache w)) = Some f.
Proof.
  intros Hd Hnd Hin Hh Hkeep. apply (sweep_keeps_stat w d); auto.
  destruct Hkeep as [Hk | Hnew]; [|now apply evicted_recent].
  unfold evicted, is_regular. now rewrite Hk.
Qed.

(** X21.  A sweep on which no call fails leaves nothing for a second sweep
    at the same time: the second one changes nothing. *)
Theorem sweep_idempotent (w : world) (d : directory) :
  cache_dir w = Some d ->
  NoDup (Dir.names d) ->
  (forall n f, In (n, f) d -> faults (clock w) f = false) ->
  let w1 := snd (cleanup_image_cache w) in
  cache_dir (snd (cleanup_image_cache w1)) = cache_dir w1.
Proof.
  intros Hd Hnd Hok. cbv zeta.
  destruct (cleanup_image_cache_full w d Hd Hnd) as (w1 & Hrun & Hd1 & Hclock & _).
  rewrite Hrun. cbn [snd].
  pose proof (swept_NoDup (clock w) d Hnd) as Hnd1.
  rewrite (swept_no_fault _ _ Hok) in Hd1, Hnd1. cbn [snd] in Hd1, Hnd1.
  destruct (cleanup_image_cache_full w1 _ Hd1 Hnd1) as (w2 & Hrun2 & Hd2 & _).
  rewrite Hrun2. cbn [snd]. rewrite Hd2, Hd1, Hclock.
  rewrite swept_no_fault.
  - cbn [snd]. unfold survivors. now rewrite filter_idem.
  - intros n f Hin. unfold survivors in Hin. apply filter_In in Hin.
    now apply (Hok n f).
Qed.

(** X22.  Sweep, then resolve: a valid cover that is not older than the age
    limit survives the sweep and is still served from the cache, without a
    request. *)
Theorem kept_cover_still_hits (net : remote) (cover_id isbn : Py.pyval)
    (w : world) (d : directory) (f : file) :
  (Py.truthy cover_id || Py.truthy isbn) = true ->
  cache_dir w = Some d ->
  NoDup (Dir.names d) ->
  stat (cached_cover_name cover_id isbn) w = Some f ->
  1000 < f_size f ->
  f_hazard f <> Vanishing ->
  clock w - age_limit_seconds <= f_mtime f ->
  let w1 := snd (cleanup_image_cache w) in
  fst (get_cover_image net cover_id isbn w1) =
    Ok (CacheFile (cached_cover_name cover_id isbn)) /\
  requests_of (get_cover_image net cover_id isbn) w1 = [].
Proof.
  intros Ht Hd Hnd Hf Hsz Hh Hnew. cbv zeta.
  assert (Hv : valid_cover (cached_cover_name cover_id isbn)
                 (snd (cleanup_image_cache w))).
  { exists f. split; [|auto].
    apply (sweep_keeps_stat w d); auto.
    - apply lookup_Some_In. unfold stat, entries in Hf. now rewrite Hd in Hf.
    - now apply evicted_recent. }
  destruct (get_cover_image_hit net cover_id isbn _ Ht Hv) as (w2 & Hrun & _ & Hcalls).
  rewrite (requests_of_logged _ _ w2 []);
    [| now rewrite Hrun | now rewrite app_nil_r].
  now rewrite Hrun.
Qed.

Lemma sweep_only_removes_witness :
  let r := cleanup_image_cache Sample.locked_first in
  fst r = Ok tt /\
  requests_of cleanup_image_cache Sample.locked_first = [] /\
  forall n f, stat n (snd r) = Some f -> stat n Sample.locked_first = Some f.
Proof.
  apply (sweep_only_removes Sample.locked_first _ eq_refl).
  repeat constructor; cbn; intuition discriminate.
Defined.

Lemma sweep_keeps_unexpired_witness :
  stat "12345.jpg" (snd (cleanup_image_cache Sample.two_covers)) =
  Some (Sample.aged 20000 2 Sound).
Proof.
  apply (sweep_keeps_unexpired Sample.two_covers _ "12345.jpg"
           (Sample.aged 20000 2 Sound) eq_refl).
  - repeat constructor; cbn; intuition discriminate.
  - now left.
  - discriminate.
  - right. discriminate.
Defined.

Lemma sweep_idempotent_witness :
  let w1 := snd (cleanup_image_cache Sample.two_covers) in
  cache_dir (snd (cleanup_image_cache w1)) = cache_dir w1.
Proof.
  apply (sweep_idempotent Sample.two_covers _ eq_refl).
  - repeat constructor; cbn; intuition discriminate.
  - intros n f [[= <- <-] | [[= <- <-] | []]]; reflexivity.
Defined.

Lemma kept_cover_still_hits_witness :
  let w1 := snd (cleanup_image_cache Sample.two_covers) in
  fst (get_cover_image Sample.offline (Py.PInt 12345) Sample.the_isbn w1) =
    Ok (CacheFile "12345.jpg") /\
  requests_of (get_cover_image Sample.offline (Py.PInt 12345) Sample.the_isbn) w1 = [].
Proof.
  apply (kept_cover_still_hits Sample.offline (Py.PInt 12345) Sample.the_isbn
           Sample.two_covers _ (Sample.aged 20000 2 Sound) eq_refl eq_refl).
  - repeat constructor; cbn; intuition discriminate.
  - reflexivity.
  - reflexivity.
  - discriminate.
  - discriminate.
Defined.
